(** * Navigation container of the recipe application

    A shallow embedding of the client-side navigation layer:
    - [NavigationTypes.js] (second half of
      [static-site/components/recipes.js]): route names, screen
      configuration, the deep-link table and [NavigationHelpers];
    - [WebNavigationContainer] (the enhanced navigation container): the
      history stack, the listener registry, the animation flag and the
      browser-history mirror.

    Modelling boundary.  The DOM is not modelled: mounting a screen,
    with the console output of its component, is one [Render] event in
    the trace of observable effects, and the screen components are taken
    to return normally.  Listener callbacks are observers: a callback is
    identified by a number and either returns or throws, depending on
    the payload it receives.  The [load] handler of the page, the touch
    handlers (whose tests compare floating-point coordinates) and the
    document title are left out; the [popstate] and [keydown] listeners
    are modelled after the container, with the card and favourites
    helpers.  Property names inherited from [Object.prototype] (such as
    [constructor]) are not used as screen names or parameter keys, and
    parameter keys are not array indices. *)

From Stdlib Require Import Ascii String ZArith Lia.
From stdpp Require Import gmap strings list fin_maps.

Open Scope string_scope.
Open Scope Z_scope.

(** ** JavaScript values and objects *)

(** The values carried in navigation parameters.  An object value (a
    recipe) is kept as its own key/value text fields. *)
Inductive value : Type :=
| VUndefined
| VNull
| VBool (b : bool)
| VStr (s : string)
| VObject (fields : list (string * string)).

#[global] Instance value_eq_dec : EqDecision value.
Proof. solve_decision. Defined.

(** [ToString] as applied by [String.prototype.replace] to its second
    argument. *)
Definition toString (v : value) : string :=
  match v with
  | VUndefined => "undefined"
  | VNull => "null"
  | VBool true => "true"
  | VBool false => "false"
  | VStr s => s
  | VObject _ => "[object Object]"
  end.

(** A parameter object [{k1: v1, ...}]: keys in insertion order, each
    key once. *)
Abbreviation params := (list (string * value)).

Fixpoint obj_get (o : params) (k : string) : option value :=
  match o with
  | [] => None
  | (k', v) :: o' => if decide (k' = k) then Some v else obj_get o' k
  end.

(** [o[k] = v]: an existing key keeps its position. *)
Fixpoint obj_set (o : params) (k : string) (v : value) : params :=
  match o with
  | [] => [(k, v)]
  | (k', v') :: o' =>
      if decide (k' = k) then (k, v) :: o' else (k', v') :: obj_set o' k v
  end.

(** [Object.keys(o)]. *)
Definition obj_keys (o : params) : list string := o.*1.

(** [{ ...a, ...b }]: the own properties of [a], then those of [b]
    assigned over them. *)
Definition obj_spread (a b : params) : params :=
  fold_left (fun acc kv => obj_set acc kv.1 kv.2) b (fold_left (fun acc kv => obj_set acc kv.1 kv.2) a []).

(** ** JavaScript string operations used by the deep-link helpers *)

Module JsString.

(** [strip_prefix p s] is the rest of [s] after the prefix [p]. *)
Fixpoint strip_prefix (p s : string) : option string :=
  match p, s with
  | EmptyString, _ => Some s
  | String _ _, EmptyString => None
  | String a p', String b s' =>
      if decide (a = b) then strip_prefix p' s' else None
  end.

(** First occurrence of [pat] in [s]: the text before and after it. *)
Fixpoint find_first (pat s : string) : option (string * string) :=
  match strip_prefix pat s with
  | Some rest => Some (EmptyString, rest)
  | None =>
      match s with
      | EmptyString => None
      | String c s' =>
          match find_first pat s' with
          | Some (before, after) => Some (String c before, after)
          | None => None
          end
      end
  end.

(** [GetSubstitution] for a string pattern (no capture groups): [$$],
    [$&], [$`] and [$'] are expanded, every other character is copied. *)
Fixpoint getSubstitution (matched before after repl : string) : string :=
  match repl with
  | EmptyString => EmptyString
  | String c r =>
      if decide (c = "$"%char) then
        match r with
        | EmptyString => String c EmptyString
        | String d r' =>
            if decide (d = "$"%char) then
              String "$"%char (getSubstitution matched before after r')
            else if decide (d = "&"%char) then
              matched ++ getSubstitution matched before after r'
            else if decide (d = "`"%char) then
              before ++ getSubstitution matched before after r'
            else if decide (d = "'"%char) then
              after ++ getSubstitution matched before after r'
            else String c (getSubstitution matched before after r)
        end
      else String c (getSubstitution matched before after r)
  end.

(** [s.replace(pat, repl)] with a string pattern: only the first
    occurrence is replaced. *)
Definition replace (s pat repl : string) : string :=
  match find_first pat s with
  | None => s
  | Some (before, after) =>
      before ++ getSubstitution pat before after repl ++ after
  end.

(** [s.split(sep)] for a one-character separator. *)
Fixpoint split (sep : ascii) (s : string) : list string :=
  match s with
  | EmptyString => [EmptyString]
  | String c s' =>
      if decide (c = sep) then EmptyString :: split sep s'
      else
        match split sep s' with
        | h :: t => String c h :: t
        | [] => [String c EmptyString]
        end
  end.

(** Truthiness of a string. *)
Definition truthy (s : string) : bool :=
  match s with EmptyString => false | _ => true end.

(** [c.toLowerCase()] on the ASCII letters. *)
Definition lower_ascii (c : ascii) : ascii :=
  let n := nat_of_ascii c in
  if ((65 <=? n)%nat && (n <=? 90)%nat)%bool then ascii_of_nat (n + 32) else c.

Fixpoint toLowerCase (s : string) : string :=
  match s with
  | EmptyString => EmptyString
  | String c s' => String (lower_ascii c) (toLowerCase s')
  end.

(** [s.substring(n)]. *)
Fixpoint substring_from (n : nat) (s : string) : string :=
  match n, s with
  | O, _ => s
  | S n', String _ s' => substring_from n' s'
  | S _, EmptyString => EmptyString
  end.

End JsString.

(** ** NavigationTypes.js *)

Module ROUTES.
Definition WELCOME := "Welcome".
Definition HOME := "Home".
Definition RECIPE_DETAIL := "RecipeDetail".
Definition MY_FOOD := "MyFood".
Definition CUSTOM_RECIPES := "CustomRecipesScreen".
Definition RECIPES_FORM := "RecipesFormScreen".
Definition FAVORITE := "FavoriteScreen".

(** [Object.values(ROUTES)]. *)
Definition values : list string :=
  [WELCOME; HOME; RECIPE_DETAIL; MY_FOOD; CUSTOM_RECIPES; RECIPES_FORM; FAVORITE].
End ROUTES.

Module ANIMATIONS.
Definition SLIDE_FROM_RIGHT := "slide_from_right".
Definition SLIDE_FROM_LEFT := "slide_from_left".
Definition SLIDE_FROM_TOP := "slide_from_top".
Definition FADE := "fade".
Definition SCALE := "scale".
Definition NONE := "none".
End ANIMATIONS.

Record screen_config : Type := {
  component : string;
  headerShown : bool;
  gestureEnabled : bool;
  animation : string;
  initialParams : params
}.

(** Lookup of an own property in an object literal. *)
Fixpoint table_get {A : Type} (t : list (string * A)) (k : string) : option A :=
  match t with
  | [] => None
  | (k', a) :: t' => if decide (k' = k) then Some a else table_get t' k
  end.

Definition SCREEN_CONFIG : list (string * screen_config) :=
  [ (ROUTES.WELCOME,
      {| component := "WelcomeScreen"; headerShown := false; gestureEnabled := false;
         animation := "fade"; initialParams := [] |});
    (ROUTES.HOME,
      {| component := "HomeScreen"; headerShown := false; gestureEnabled := true;
         animation := "slide_from_right"; initialParams := [] |});
    (ROUTES.RECIPE_DETAIL,
      {| component := "RecipeDetailScreen"; headerShown := false; gestureEnabled := true;
         animation := "slide_from_right"; initialParams := [("recipe", VNull)] |});
    (ROUTES.MY_FOOD,
      {| component := "MyRecipeScreen"; headerShown := false; gestureEnabled := true;
         animation := "slide_from_bottom"; initialParams := [] |});
    (ROUTES.CUSTOM_RECIPES,
      {| component := "CustomRecipesScreen"; headerShown := false; gestureEnabled := true;
         animation := "slide_from_right"; initialParams := [] |});
    (ROUTES.RECIPES_FORM,
      {| component := "RecipesFormScreen"; headerShown := false; gestureEnabled := true;
         animation := "slide_from_bottom";
         initialParams := [("recipe", VNull); ("isEdit", VBool false)] |});
    (ROUTES.FAVORITE,
      {| component := "FavoriteScreen"; headerShown := false; gestureEnabled := true;
         animation := "slide_from_right"; initialParams := [] |}) ].

Definition DEEP_LINKS : list (string * string) :=
  [ (ROUTES.WELCOME, "/welcome");
    (ROUTES.HOME, "/home");
    (ROUTES.RECIPE_DETAIL, "/recipe/:id");
    (ROUTES.MY_FOOD, "/my-recipes");
    (ROUTES.CUSTOM_RECIPES, "/custom-recipes");
    (ROUTES.RECIPES_FORM, "/add-recipe");
    (ROUTES.FAVORITE, "/favorites") ].

Module NavigationHelpers.

(** [Object.values(ROUTES).includes(routeName)]. *)
Definition isValidRoute (routeName : string) : bool :=
  bool_decide (routeName ∈ ROUTES.values).


Definition getAnimation (routeName : string) : string :=
  match table_get SCREEN_CONFIG routeName with
  | Some config => animation config
  | None => ANIMATIONS.SLIDE_FROM_RIGHT
  end.


(** The link starts as the route's template (or ["/"]); each key of
    [params], in order, replaces the first [:key] it finds. *)
Definition getDeepLink (routeName : string) (p : params) : string :=
  let link :=
    match table_get DEEP_LINKS routeName with
    | Some l => if JsString.truthy l then l else "/"
    | None => "/"
    end in
  fold_left
    (fun link key =>
       JsString.replace link (":" ++ key)
         (toString (default VUndefined (obj_get p key))))
    (obj_keys p) link.

(** [segments[i]] of the non-empty path segments. *)
Definition segments (path : string) : list string :=
  List.filter JsString.truthy (JsString.split "/"%char path).

Definition parseDeepLink (path : string) : string * params :=
  let segs := segments path in
  match segs !! 0%nat with
  | Some seg0 =>
      if decide (seg0 = "welcome") then (ROUTES.WELCOME, [])
      else if decide (seg0 = "home") then (ROUTES.HOME, [])
      else if decide (seg0 = "recipe") then
        (ROUTES.RECIPE_DETAIL,
         [("id", match segs !! 1%nat with Some s => VStr s | None => VUndefined end)])
      else if decide (seg0 = "my-recipes") then (ROUTES.MY_FOOD, [])
      else if decide (seg0 = "custom-recipes") then (ROUTES.CUSTOM_RECIPES, [])
      else if decide (seg0 = "add-recipe") then (ROUTES.RECIPES_FORM, [])
      else if decide (seg0 = "favorites") then (ROUTES.FAVORITE, [])
      else (ROUTES.HOME, [])
  | None => (ROUTES.HOME, [])
  end.

End NavigationHelpers.

(** ** Observable effects *)

(** [NAVIGATION_EVENTS]: the four listener channels. *)
Inductive channel : Type := FOCUS | BLUR | STATE | BEFORE_REMOVE.

#[global] Instance channel_eq_dec : EqDecision channel.
Proof. solve_decision. Defined.

(** A history entry [{ screen, params }]. *)
Record entry : Type := Entry { screen : string; eparams : params }.

#[global] Instance entry_eq_dec : EqDecision entry.
Proof. solve_decision. Defined.

(** A JavaScript array of entries; [None] is a hole of a sparse array. *)
Abbreviation js_array := (list (option entry)).

Inductive action_type : Type := NAVIGATE | REPLACE.

(** What a listener receives:
    [{ data: { action: { type, payload: { name, params } } } }],
    [{ target }] or [{ data: { index, routes } }]. *)
Inductive payload : Type :=
| ActionData (type : action_type) (name : string) (p : params)
| Target (target : string)
| StateData (index : Z) (routes : js_array).

Inductive js_error : Type :=
| TypeError
| HandlerError (hid : nat).

(** A subscribed callback: its identity and whether it throws on a
    given payload. *)
Record handler : Type := Handler { hid : nat; throws : payload -> bool }.

(** The texts written to the console. *)
Inductive message : Type :=
| LogNavigating (screenName : string) (p : params)
| ErrNotInRegistry (screenName : string)
| LogBlocked
| LogGoingBack (screenName : string)
| LogAtRoot
| LogReplacing (screenName : string) (p : params)
| LogResetting (screenName : string)
| ErrScreenNotFound (screenName : string)
| ErrListener (error : js_error)
| LogStateUpdated (index : Z) (routes : js_array).

Inductive event : Type :=
| Console (m : message)
| Called (ch : channel) (h : nat) (data : payload) (seen : Z * js_array)
| Render (screenName : string) (p : params) (anim : string)
| PushState (st : entry) (url : string)
| ReplaceState (st : entry) (url : string).

(** In [Called ch h data seen], [seen] is what [getState()] returns to
    the callback while it runs: the index and the stack at that moment. *)

(** ** The container state *)

Record container : Type := Container {
  currentScreen : string;
  screenParams : gmap string params;
  listeners : channel -> list handler;
  animationInProgress : bool;
  navigationHistory : js_array;
  historyIndex : Z;
  navigationState : Z * js_array;
  pendingTimers : nat;
  trace : list event
}.

Definition set_currentScreen (x : string) (s : container) : container :=
  Container x (screenParams s) (listeners s) (animationInProgress s)
    (navigationHistory s) (historyIndex s) (navigationState s) (pendingTimers s) (trace s).

Definition set_screenParams (x : gmap string params) (s : container) : container :=
  Container (currentScreen s) x (listeners s) (animationInProgress s)
    (navigationHistory s) (historyIndex s) (navigationState s) (pendingTimers s) (trace s).

Definition set_listeners (x : channel -> list handler) (s : container) : container :=
  Container (currentScreen s) (screenParams s) x (animationInProgress s)
    (navigationHistory s) (historyIndex s) (navigationState s) (pendingTimers s) (trace s).

Definition set_animationInProgress (x : bool) (s : container) : container :=
  Container (currentScreen s) (screenParams s) (listeners s) x
    (navigationHistory s) (historyIndex s) (navigationState s) (pendingTimers s) (trace s).

Definition set_navigationHistory (x : js_array) (s : container) : container :=
  Container (currentScreen s) (screenParams s) (listeners s) (animationInProgress s)
    x (historyIndex s) (navigationState s) (pendingTimers s) (trace s).

Definition set_historyIndex (x : Z) (s : container) : container :=
  Container (currentScreen s) (screenParams s) (listeners s) (animationInProgress s)
    (navigationHistory s) x (navigationState s) (pendingTimers s) (trace s).

Definition set_navigationState (x : Z * js_array) (s : container) : container :=
  Container (currentScreen s) (screenParams s) (listeners s) (animationInProgress s)
    (navigationHistory s) (historyIndex s) x (pendingTimers s) (trace s).

Definition set_pendingTimers (x : nat) (s : container) : container :=
  Container (currentScreen s) (screenParams s) (listeners s) (animationInProgress s)
    (navigationHistory s) (historyIndex s) (navigationState s) x (trace s).

(** Appends effects to the trace (oldest first). *)
Definition log (es : list event) (s : container) : container :=
  Container (currentScreen s) (screenParams s) (listeners s) (animationInProgress s)
    (navigationHistory s) (historyIndex s) (navigationState s) (pendingTimers s)
    (trace s ++ es).

(** ** Array operations on the history *)

(** [a.slice(0, e)]: a negative [e] counts from the end. *)
Definition js_slice0 (e : Z) (a : js_array) : js_array :=
  if e <? 0 then take (Z.to_nat (Z.max 0 (Z.of_nat (length a) + e))) a
  else take (Z.to_nat e) a.

(** [a[i]]: [None] for [undefined] (out of range, or a hole). *)
Definition js_index (a : js_array) (i : Z) : option entry :=
  if i <? 0 then None else mjoin (a !! Z.to_nat i).

(** [a[i] = x]: inside the array the slot is overwritten; past its end
    the array grows and the slots in between are holes; a negative [i]
    names a property that is not an element, so the elements stay. *)
Definition js_assign (a : js_array) (i : Z) (x : entry) : js_array :=
  if i <? 0 then a
  else if i <? Z.of_nat (length a) then <[Z.to_nat i := Some x]> a
  else (a ++ replicate (Z.to_nat i - length a) None ++ [Some x])%list.

(** ** A state and exception monad for the methods *)

Inductive result (A : Type) : Type :=
| Return (a : A)
| Throw (e : js_error).
Arguments Return {A} a.
Arguments Throw {A} e.

Definition M (A : Type) : Type := container -> result A * container.

Definition ret {A : Type} (a : A) : M A := fun s => (Return a, s).

Definition bind {A B : Type} (m : M A) (k : A -> M B) : M B :=
  fun s =>
    match m s with
    | (Return a, s') => k a s'
    | (Throw e, s') => (Throw e, s')
    end.

Definition gets {A : Type} (f : container -> A) : M A := fun s => (Return (f s), s).

Definition modify (f : container -> container) : M unit := fun s => (Return tt, f s).

Definition throw {A : Type} (e : js_error) : M A := fun s => (Throw e, s).

(** [try { m } catch (error) { h(error) }]. *)
Definition try_catch {A : Type} (m : M A) (h : js_error -> M A) : M A :=
  fun s =>
    match m s with
    | (Return a, s') => (Return a, s')
    | (Throw e, s') => h e s'
    end.

Declare Scope nav_scope.
Delimit Scope nav_scope with nav.
Notation "x <- c1 ;; c2" := (bind c1 (fun x => c2))
  (at level 100, c1 at next level, c2 at level 200, right associativity) : nav_scope.
Notation "c1 ;; c2" := (bind c1 (fun _ => c2))
  (at level 100, c2 at level 200, right associativity) : nav_scope.

(** [xs.forEach(f)]. *)
Fixpoint forEach {X : Type} (xs : list X) (f : X -> M unit) : M unit :=
  match xs with
  | [] => ret tt
  | x :: xs' => bind (f x) (fun _ => forEach xs' f)
  end.

Definition emit (e : event) : M unit := modify (log [e]).

Definition console (m : message) : M unit := emit (Console m).

(** ** WebNavigationContainer *)

Module WebNavigationContainer.

Open Scope nav_scope.

Definition getState : M (Z * js_array) :=
  gets (fun s => (historyIndex s, navigationHistory s)).

(** One callback inside the [try] block of [emitNavigationEvent]. *)
Definition invoke (ch : channel) (callback : handler) (data : payload) : M unit :=
  seen <- getState;;
  emit (Called ch (hid callback) data seen);;
  if throws callback data then throw (HandlerError (hid callback)) else ret tt.

Definition emitNavigationEvent (eventType : channel) (data : payload) : M unit :=
  callbacks <- gets (fun s => listeners s eventType);;
  forEach callbacks (fun callback =>
    try_catch (invoke eventType callback data)
              (fun error => console (ErrListener error))).

Definition addListener (eventType : channel) (callback : handler) : M unit :=
  modify (fun s =>
    set_listeners (fun ch =>
      if decide (ch = eventType) then (listeners s ch ++ [callback])%list
      else listeners s ch) s).

(** Also the function returned by [addListener]. *)
Definition removeListener (eventType : channel) (callback : handler) : M unit :=
  modify (fun s =>
    set_listeners (fun ch =>
      if decide (ch = eventType)
      then filter (fun cb => hid cb ≠ hid callback) (listeners s ch)
      else listeners s ch) s).

Definition addToHistory (screenName : string) (p : params) : M unit :=
  modify (fun s =>
    set_navigationHistory (js_slice0 (historyIndex s + 1) (navigationHistory s)) s);;
  modify (fun s =>
    set_navigationHistory (navigationHistory s ++ [Some (Entry screenName p)])%list s);;
  modify (fun s =>
    set_historyIndex (Z.of_nat (length (navigationHistory s)) - 1) s).

(** [navigationState.emit(state)]; its one listener, installed by
    [init], writes the state to the console. *)
Definition navigationState_emit (st : Z * js_array) : M unit :=
  modify (set_navigationState st);;
  console (LogStateUpdated st.1 st.2).

(** The timer set here is counted in [pendingTimers]; mounting the
    screen is the [Render] effect. *)
Definition renderScreenWithAnimation (screenName : string) (p : params) (anim : string)
  : M unit :=
  modify (set_animationInProgress true);;
  match table_get SCREEN_CONFIG screenName with
  | None =>
      console (ErrScreenNotFound screenName);;
      modify (set_animationInProgress false)
  | Some _ =>
      emit (Render screenName p anim);;
      modify (fun s => set_pendingTimers (S (pendingTimers s)) s)
  end.

(** The callback of the 300 ms timer of [renderScreenWithAnimation]. *)
Definition animationTimer : M unit :=
  pending <- gets pendingTimers;;
  match pending with
  | O => ret tt
  | S n =>
      modify (set_pendingTimers n);;
      modify (set_animationInProgress false)
  end.

Definition updateBrowserHistory (screenName : string) (p : params) : M unit :=
  let url := NavigationHelpers.getDeepLink screenName p in
  let state := Entry screenName p in
  emit (PushState state url).

Definition canGoBack : M bool := gets (fun s => bool_decide (0 < historyIndex s)).

Definition getCurrentRoute : M (string * params) :=
  gets (fun s => (currentScreen s, default [] (screenParams s !! currentScreen s))).

(** [this.screenParams[screenName] = { ...this.screenParams[screenName], ...params }]. *)
Definition storeParams (screenName : string) (p : params) : M unit :=
  modify (fun s =>
    set_screenParams
      (<[screenName := obj_spread (default [] (screenParams s !! screenName)) p]>
         (screenParams s)) s).

Definition navigate (screenName : string) (p : params) (optAnimation : option string)
  : M unit :=
  console (LogNavigating screenName p);;
  if negb (NavigationHelpers.isValidRoute screenName) then
    console (ErrNotInRegistry screenName)
  else
    blocked <- gets animationInProgress;;
    if blocked then console LogBlocked
    else
      emitNavigationEvent BEFORE_REMOVE (ActionData NAVIGATE screenName p);;
      storeParams screenName p;;
      addToHistory screenName p;;
      newState <- gets (fun s =>
        (Z.of_nat (length (navigationHistory s)) - 1, navigationHistory s));;
      navigationState_emit newState;;
      let anim :=
        match optAnimation with
        | Some a => if JsString.truthy a then a else NavigationHelpers.getAnimation screenName
        | None => NavigationHelpers.getAnimation screenName
        end in
      previousScreen <- gets currentScreen;;
      modify (set_currentScreen screenName);;
      (if JsString.truthy previousScreen
       then emitNavigationEvent BLUR (Target previousScreen)
       else ret tt);;
      renderScreenWithAnimation screenName p anim;;
      emitNavigationEvent FOCUS (Target screenName);;
      updateBrowserHistory screenName p;;
      emitNavigationEvent STATE (StateData newState.1 newState.2).

Definition goBack : M unit :=
  can <- canGoBack;;
  if can then
    modify (fun s => set_historyIndex (historyIndex s - 1) s);;
    previous <- gets (fun s => js_index (navigationHistory s) (historyIndex s));;
    match previous with
    | None => throw TypeError
    | Some previousEntry =>
        console (LogGoingBack (screen previousEntry));;
        current <- gets currentScreen;;
        modify (set_currentScreen (screen previousEntry));;
        emitNavigationEvent BLUR (Target current);;
        emitNavigationEvent FOCUS (Target (screen previousEntry));;
        renderScreenWithAnimation (screen previousEntry) (eparams previousEntry)
          ANIMATIONS.SLIDE_FROM_LEFT;;
        updateBrowserHistory (screen previousEntry) (eparams previousEntry)
    end
  else console LogAtRoot.

Definition replace (screenName : string) (p : params) : M unit :=
  console (LogReplacing screenName p);;
  emitNavigationEvent BEFORE_REMOVE (ActionData REPLACE screenName p);;
  storeParams screenName p;;
  len <- gets (fun s => length (navigationHistory s));;
  (if bool_decide (0 < len)%nat then
     modify (fun s =>
       set_navigationHistory
         (js_assign (navigationHistory s) (historyIndex s) (Entry screenName p)) s)
   else addToHistory screenName p);;
  previousScreen <- gets currentScreen;;
  modify (set_currentScreen screenName);;
  emitNavigationEvent BLUR (Target previousScreen);;
  renderScreenWithAnimation screenName p ANIMATIONS.FADE;;
  emitNavigationEvent FOCUS (Target screenName);;
  emit (ReplaceState (Entry screenName p) (NavigationHelpers.getDeepLink screenName p)).

Definition reset (screenName : string) (p : params) : M unit :=
  console (LogResetting screenName);;
  modify (set_navigationHistory []);;
  modify (set_historyIndex (-1));;
  modify (set_screenParams ∅);;
  addToHistory screenName p;;
  modify (set_currentScreen screenName);;
  renderScreenWithAnimation screenName p ANIMATIONS.FADE;;
  emitNavigationEvent FOCUS (Target screenName).

(** [routeMap[route.toLowerCase()] || null]. *)
Definition findScreenByRoute (route : string) : option string :=
  table_get
    [ ("welcome", ROUTES.WELCOME); ("home", ROUTES.HOME);
      ("recipe", ROUTES.RECIPE_DETAIL); ("my-recipes", ROUTES.MY_FOOD);
      ("custom-recipes", ROUTES.CUSTOM_RECIPES); ("add-recipe", ROUTES.RECIPES_FORM);
      ("favorites", ROUTES.FAVORITE) ]
    (JsString.toLowerCase route).

(** The class defines [handleInitialRoute] twice; the later definition,
    which reads [location.hash], is the one in effect. *)
Definition handleInitialRoute (hash : string) : M unit :=
  if (JsString.truthy hash && bool_decide (1 < String.length hash)%nat)%bool then
    match findScreenByRoute (JsString.substring_from 2 hash) with
    | Some screenName =>
        modify (set_currentScreen screenName);;
        addToHistory screenName []
    | None => ret tt
    end
  else ret tt.

(** The callback of [initializePerformanceMonitoring]; it does not throw. *)
Definition performanceMonitor : handler := Handler 0 (fun _ => false).

Definition init (hash : string) : M unit :=
  handleInitialRoute hash;;
  addListener STATE performanceMonitor;;
  navigate ROUTES.WELCOME [] None.

(** The fields as the constructor sets them, before [init]. *)
Definition fresh : container :=
  {| currentScreen := ROUTES.WELCOME;
     screenParams := ∅;
     listeners := fun _ => [];
     animationInProgress := false;
     navigationHistory := [];
     historyIndex := -1;
     navigationState := (0, [Some (Entry ROUTES.WELCOME [])]);
     pendingTimers := 0;
     trace := [] |}.

(** [new WebNavigationContainer()] on a page whose [location.hash] is
    [hash]. *)
Definition constructor (hash : string) : container := (init hash fresh).2.

End WebNavigationContainer.

Import WebNavigationContainer.

(** ** Calls made on the container *)

Inductive call : Type :=
| Navigate (screenName : string) (p : params) (optAnimation : option string)
| GoBack
| Replace (screenName : string) (p : params)
| Reset (screenName : string) (p : params)
| AddListener (eventType : channel) (callback : handler)
| RemoveListener (eventType : channel) (callback : handler)
| AnimationTimer.

Definition perform (c : call) : M unit :=
  match c with
  | Navigate screenName p o => navigate screenName p o
  | GoBack => goBack
  | Replace screenName p => replace screenName p
  | Reset screenName p => reset screenName p
  | AddListener ch h => addListener ch h
  | RemoveListener ch h => removeListener ch h
  | AnimationTimer => animationTimer
  end.

(** Each call is one task of the event loop: an exception it throws ends
    that task only, and the fields keep what was written before it. *)
Definition step (s : container) (c : call) : container := (perform c s).2.

Definition run (cs : list call) (s : container) : container := fold_left step cs s.

(** * Definitions used in the statements *)

(** ** The end state of each method *)

(** The effects of one emission: every callback is called, and a console
    error follows each callback that throws. *)
Definition emitted (ch : channel) (data : payload) (seen : Z * js_array)
    (hs : list handler) : list event :=
  flat_map (fun h =>
    Called ch (hid h) data seen ::
    (if throws h data then [Console (ErrListener (HandlerError (hid h)))] else [])) hs.

Definition has_config (n : string) : bool :=
  match table_get SCREEN_CONFIG n with Some _ => true | None => false end.

(** What [renderScreenWithAnimation] adds to the trace. *)
Definition render_trace (n : string) (p : params) (a : string) : list event :=
  if has_config n then [Render n p a] else [Console (ErrScreenNotFound n)].

Definition render_timers (n : string) (t : nat) : nat :=
  if has_config n then S t else t.

(** The stack after [addToHistory]. *)
Definition pushed (n : string) (p : params) (s : container) : js_array :=
  (js_slice0 (historyIndex s + 1) (navigationHistory s) ++ [Some (Entry n p)])%list.

Definition merged (n : string) (p : params) (s : container) : gmap string params :=
  <[n := obj_spread (default [] (screenParams s !! n)) p]> (screenParams s).

Definition chosen_animation (n : string) (o : option string) : string :=
  match o with
  | Some a => if JsString.truthy a then a else NavigationHelpers.getAnimation n
  | None => NavigationHelpers.getAnimation n
  end.

Definition navigate_trace (n : string) (p : params) (o : option string) (s : container)
  : list event :=
  let old := (historyIndex s, navigationHistory s) in
  let new := (Z.of_nat (length (pushed n p s)) - 1, pushed n p s) in
  ([Console (LogNavigating n p)]
   ++ emitted BEFORE_REMOVE (ActionData NAVIGATE n p) old (listeners s BEFORE_REMOVE)
   ++ [Console (LogStateUpdated new.1 new.2)]
   ++ (if JsString.truthy (currentScreen s)
       then emitted BLUR (Target (currentScreen s)) new (listeners s BLUR) else [])
   ++ [Render n p (chosen_animation n o)]
   ++ emitted FOCUS (Target n) new (listeners s FOCUS)
   ++ [PushState (Entry n p) (NavigationHelpers.getDeepLink n p)]
   ++ emitted STATE (StateData new.1 new.2) new (listeners s STATE))%list.

Definition navigated (n : string) (p : params) (o : option string) (s : container)
  : container :=
  {| currentScreen := n;
     screenParams := merged n p s;
     listeners := listeners s;
     animationInProgress := true;
     navigationHistory := pushed n p s;
     historyIndex := Z.of_nat (length (pushed n p s)) - 1;
     navigationState := (Z.of_nat (length (pushed n p s)) - 1, pushed n p s);
     pendingTimers := S (pendingTimers s);
     trace := trace s ++ navigate_trace n p o s |}.

(** [goBack] when an entry lies below the current one. *)
Definition back_trace (e : entry) (s : container) : list event :=
  let seen := (historyIndex s - 1, navigationHistory s) in
  ([Console (LogGoingBack (screen e))]
   ++ emitted BLUR (Target (currentScreen s)) seen (listeners s BLUR)
   ++ emitted FOCUS (Target (screen e)) seen (listeners s FOCUS)
   ++ render_trace (screen e) (eparams e) ANIMATIONS.SLIDE_FROM_LEFT
   ++ [PushState e (NavigationHelpers.getDeepLink (screen e) (eparams e))])%list.

Definition went_back (e : entry) (s : container) : container :=
  {| currentScreen := screen e;
     screenParams := screenParams s;
     listeners := listeners s;
     animationInProgress := has_config (screen e);
     navigationHistory := navigationHistory s;
     historyIndex := historyIndex s - 1;
     navigationState := navigationState s;
     pendingTimers := render_timers (screen e) (pendingTimers s);
     trace := trace s ++ back_trace e s |}.

(** [replace]. *)
Definition replaced_history (n : string) (p : params) (s : container) : js_array :=
  if bool_decide (0 < length (navigationHistory s))%nat
  then js_assign (navigationHistory s) (historyIndex s) (Entry n p)
  else pushed n p s.

Definition replaced_index (n : string) (p : params) (s : container) : Z :=
  if bool_decide (0 < length (navigationHistory s))%nat
  then historyIndex s
  else Z.of_nat (length (pushed n p s)) - 1.

Definition replace_trace (n : string) (p : params) (s : container) : list event :=
  let old := (historyIndex s, navigationHistory s) in
  let new := (replaced_index n p s, replaced_history n p s) in
  ([Console (LogReplacing n p)]
   ++ emitted BEFORE_REMOVE (ActionData REPLACE n p) old (listeners s BEFORE_REMOVE)
   ++ emitted BLUR (Target (currentScreen s)) new (listeners s BLUR)
   ++ render_trace n p ANIMATIONS.FADE
   ++ emitted FOCUS (Target n) new (listeners s FOCUS)
   ++ [ReplaceState (Entry n p) (NavigationHelpers.getDeepLink n p)])%list.

Definition replaced (n : string) (p : params) (s : container) : container :=
  {| currentScreen := n;
     screenParams := merged n p s;
     listeners := listeners s;
     animationInProgress := has_config n;
     navigationHistory := replaced_history n p s;
     historyIndex := replaced_index n p s;
     navigationState := navigationState s;
     pendingTimers := render_timers n (pendingTimers s);
     trace := trace s ++ replace_trace n p s |}.

(** [reset]. *)
Definition reset_trace (n : string) (p : params) (s : container) : list event :=
  ([Console (LogResetting n)]
   ++ render_trace n p ANIMATIONS.FADE
   ++ emitted FOCUS (Target n) (0, [Some (Entry n p)]) (listeners s FOCUS))%list.

Definition reset_to (n : string) (p : params) (s : container) : container :=
  {| currentScreen := n;
     screenParams := ∅;
     listeners := listeners s;
     animationInProgress := has_config n;
     navigationHistory := [Some (Entry n p)];
     historyIndex := 0;
     navigationState := navigationState s;
     pendingTimers := render_timers n (pendingTimers s);
     trace := trace s ++ reset_trace n p s |}.

(** ** Invariant, effects and their classification *)

(** The index names a slot of the stack, and no slot is a hole. *)
Definition stack_ok (s : container) : Prop :=
  0 <= historyIndex s < Z.of_nat (length (navigationHistory s))
  ∧ Forall is_Some (navigationHistory s).

(** The effects added to the trace between [s] and a later state [s']. *)
Definition since (s s' : container) : list event := drop (length (trace s)) (trace s').

Definition is_browser_event (e : event) : bool :=
  match e with
  | PushState _ _ | ReplaceState _ _ => true
  | _ => false
  end.

Definition is_callback_or_render (e : event) : bool :=
  match e with
  | Called _ _ _ _ | Render _ _ _ => true
  | _ => false
  end.

Definition is_call_on (ch : channel) (e : event) : bool :=
  match e with
  | Called ch' _ _ _ => bool_decide (ch' = ch)
  | _ => false
  end.

Definition is_listener_error (e : event) : bool :=
  match e with
  | Console (ErrListener _) => true
  | _ => false
  end.

(** The callbacks of one emission, in registration order. *)
Definition calls (ch : channel) (data : payload) (seen : Z * js_array)
    (hs : list handler) : list event :=
  map (fun h => Called ch (hid h) data seen) hs.

(** [k] firings of the animation timer. *)
Definition timers (k : nat) : list call := replicate k AnimationTimer.

(** ** Scenarios *)

(** A container that has just shown [Welcome], let that animation end,
    and navigated to [Home]: the [Home] animation is in progress. *)
Definition animating_home : container :=
  run [AnimationTimer; Navigate ROUTES.HOME [] None] (constructor "").

(** A container whose first animation has ended, with one subscriber on
    each channel; the second subscriber throws. *)
Definition subscribed : container :=
  run [ AnimationTimer;
        AddListener BEFORE_REMOVE (Handler 1 (fun _ => false));
        AddListener BLUR (Handler 2 (fun _ => true));
        AddListener FOCUS (Handler 3 (fun _ => false));
        AddListener STATE (Handler 4 (fun _ => false)) ]
      (constructor "").

(** ** Result and effects of a call *)

(** How a call completes: only [goBack] can throw, when the slot below
    the current one is [undefined]. *)
Definition completion (c : call) (s : container) : result unit :=
  match c with
  | GoBack =>
      if bool_decide (0 < historyIndex s) then
        match js_index (navigationHistory s) (historyIndex s - 1) with
        | Some _ => Return tt
        | None => Throw TypeError
        end
      else Return tt
  | _ => Return tt
  end.

(** What a call appends to the trace. *)
Definition effects (c : call) (s : container) : list event :=
  match c with
  | Navigate n p o =>
      if NavigationHelpers.isValidRoute n then
        if animationInProgress s
        then [Console (LogNavigating n p); Console LogBlocked]
        else navigate_trace n p o s
      else [Console (LogNavigating n p); Console (ErrNotInRegistry n)]
  | GoBack =>
      if bool_decide (0 < historyIndex s) then
        match js_index (navigationHistory s) (historyIndex s - 1) with
        | Some e => back_trace e s
        | None => []
        end
      else [Console LogAtRoot]
  | Replace n p => replace_trace n p s
  | Reset n p => reset_trace n p s
  | AddListener _ _ | RemoveListener _ _ | AnimationTimer => []
  end.

(** ** Listeners that throw *)

(** The same callback, made not to throw. *)
Definition quiet (h : handler) : handler := Handler (hid h) (fun _ => false).

(** The container with every callback made not to throw. *)
Definition pacified (s : container) : container :=
  set_listeners (fun ch => map quiet (listeners s ch)) s.

(** Every field of the container other than the listeners and the trace. *)
Definition outcome (s : container)
  : string * gmap string params * bool * js_array * Z * (Z * js_array) * nat :=
  (currentScreen s, screenParams s, animationInProgress s, navigationHistory s,
   historyIndex s, navigationState s, pendingTimers s).

Definition without_listener_errors (es : list event) : list event :=
  List.filter (fun e => negb (is_listener_error e)) es.

(** The console errors owed to the callbacks that throw on [data]. *)
Definition logged_errors (data : payload) (hs : list handler) : list event :=
  map (fun h => Console (ErrListener (HandlerError (hid h))))
      (List.filter (fun h => throws h data) hs).

(** ** Screens and parameters a call can reach *)

(** The call names the screen [n]. *)
Definition names_screen (n : string) (c : call) : bool :=
  match c with
  | Navigate n' _ _ | Replace n' _ | Reset n' _ => bool_decide (n' = n)
  | _ => false
  end.

(** The screen [n] is neither shown nor held in any slot of the stack. *)
Definition unreachable (n : string) (s : container) : Prop :=
  currentScreen s ≠ n ∧ ∀ e, Some e ∈ navigationHistory s -> screen e ≠ n.

(** [Object.assign(a, b)] on the model of objects. *)
Definition obj_assign (a b : params) : params :=
  fold_left (fun acc kv => obj_set acc kv.1 kv.2) b a.

(** The call may change the parameters stored for the screen [n]. *)
Definition touches (n : string) (c : call) : bool :=
  match c with
  | Navigate n' _ _ | Replace n' _ => bool_decide (n' = n)
  | Reset _ _ => true
  | _ => false
  end.

(** ** Path segments *)

(** The character [c] occurs in [s]. *)
Fixpoint contains (c : ascii) (s : string) : bool :=
  match s with
  | EmptyString => false
  | String d s' => if decide (d = c) then true else contains c s'
  end.

(** No [$$], [$&], [$`] or [$'] occurs in [s]. *)
Fixpoint subst_free (s : string) : bool :=
  match s with
  | EmptyString => true
  | String c r =>
      if decide (c = "$"%char) then
        match r with
        | EmptyString => true
        | String d _ =>
            if decide (d = "$"%char) then false
            else if decide (d = "&"%char) then false
            else if decide (d = "`"%char) then false
            else if decide (d = "'"%char) then false
            else subst_free r
        end
      else subst_free r
  end.

(** A value that fills one path segment and is copied as it is. *)
Definition path_segment (v : string) : bool :=
  JsString.truthy v && negb (contains "/"%char v) && subst_free v.

(** The parameters named by the path template of the route: [id] for
    [RecipeDetail], none for the other routes. *)
Definition template_params (r : string) (p : params) : Prop :=
  if decide (r = ROUTES.RECIPE_DETAIL)
  then ∃ v, p = [("id", VStr v)] ∧ path_segment v = true
  else p = [].

(** * Further parts of the code *)

(** ** Browser and keyboard events *)

(** [JSON.stringify] leaves out the keys whose value is [undefined]: two
    parameter objects have the same JSON text exactly when they agree on
    what is left. *)
Definition json_view (p : params) : params :=
  List.filter (fun kv => negb (bool_decide (kv.2 = VUndefined))) p.

Definition json_equal (p q : params) : bool := bool_decide (json_view p = json_view q).

(** [history.find(h => h.screen === screen &&
    JSON.stringify(h.params) === JSON.stringify(params))], with the
    position [indexOf] gives for the entry found.  Every slot holds an
    object of its own, so that position is the one where it was found;
    reading [h.screen] at a hole throws. *)
Fixpoint find_entry (st : entry) (a : js_array) : result (option (nat * entry)) :=
  match a with
  | [] => Return None
  | None :: _ => Throw TypeError
  | Some h :: a' =>
      if (bool_decide (screen h = screen st) && json_equal (eparams h) (eparams st))%bool
      then Return (Some (O, h))
      else
        match find_entry st a' with
        | Return (Some (i, h')) => Return (Some (S i, h'))
        | r => r
        end
  end.

(** A computation that reads the state and may throw. *)
Definition attempt {A : Type} (f : container -> result A) : M A := fun s => (f s, s).

(** The [popstate] listener of [handleDeepLinking]: [state] is
    [event.state] (a state written by this container, or [null]) and
    [hash] is [location.hash] at that moment. *)
Definition handlePopState (state : option entry) (hash : string) : M unit :=
  match state with
  | Some st =>
      if JsString.truthy (screen st) then
        (modify (set_currentScreen (screen st));;
         renderScreenWithAnimation (screen st) (eparams st) ANIMATIONS.FADE;;
         historyEntry <- attempt (fun s => find_entry st (navigationHistory s));;
         match historyEntry with
         | Some (i, _) => modify (set_historyIndex (Z.of_nat i))
         | None => ret tt
         end;;
         seen <- getState;;
         emitNavigationEvent STATE (StateData seen.1 seen.2))%nav
      else handleInitialRoute hash
  | None => handleInitialRoute hash
  end.

(** The [keydown] listener of [initializeKeyboardNavigation]. *)
Definition handleKeyDown (altKey : bool) (key : string) : M unit :=
  ((if (altKey && bool_decide (key = "ArrowLeft"))%bool then goBack else ret tt);;
   can <- canGoBack;;
   if (bool_decide (key = "Escape") && can)%bool then goBack else ret tt)%nav.

(** What the page delivers to the container. *)
Inductive page_event : Type :=
| Api (c : call)
| PopState (state : option entry) (hash : string)
| KeyDown (altKey : bool) (key : string).

Definition handle (e : page_event) : M unit :=
  match e with
  | Api c => perform c
  | PopState state hash => handlePopState state hash
  | KeyDown altKey key => handleKeyDown altKey key
  end.

Definition page_step (s : container) (e : page_event) : container := (handle e s).2.

Definition page_run (es : list page_event) (s : container) : container :=
  fold_left page_step es s.

(** The end state of the [popstate] listener when the state names a
    screen and the search ends with [found]. *)
Definition popped (st : entry) (found : option (nat * entry)) (s : container)
  : container :=
  let index := match found with Some (i, _) => Z.of_nat i | None => historyIndex s end in
  {| currentScreen := screen st;
     screenParams := screenParams s;
     listeners := listeners s;
     animationInProgress := has_config (screen st);
     navigationHistory := navigationHistory s;
     historyIndex := index;
     navigationState := navigationState s;
     pendingTimers := render_timers (screen st) (pendingTimers s);
     trace := trace s
              ++ render_trace (screen st) (eparams st) ANIMATIONS.FADE
              ++ emitted STATE (StateData index (navigationHistory s))
                   (index, navigationHistory s) (listeners s STATE) |}.

(** The end state when the search throws at a hole. *)
Definition pop_interrupted (st : entry) (s : container) : container :=
  {| currentScreen := screen st;
     screenParams := screenParams s;
     listeners := listeners s;
     animationInProgress := has_config (screen st);
     navigationHistory := navigationHistory s;
     historyIndex := historyIndex s;
     navigationState := navigationState s;
     pendingTimers := render_timers (screen st) (pendingTimers s);
     trace := trace s ++ render_trace (screen st) (eparams st) ANIMATIONS.FADE |}.

(** The end state of [handleInitialRoute]. *)
Definition initial_route (hash : string) (s : container) : container :=
  if (JsString.truthy hash && bool_decide (1 < String.length hash)%nat)%bool then
    match findScreenByRoute (JsString.substring_from 2 hash) with
    | Some n =>
        set_historyIndex (Z.of_nat (length (pushed n [] s)) - 1)
          (set_navigationHistory (pushed n [] s) (set_currentScreen n s))
    | None => s
    end
  else s.

(** ** NavigationState *)

Module NavigationState.

(** [this.state.routes[this.state.index]]. *)
Definition getCurrentRoute (st : Z * js_array) : option entry := js_index st.2 st.1.

Definition canGoBack (st : Z * js_array) : bool := bool_decide (0 < st.1).

(** [this.state.routes.slice(0, this.state.index + 1)]. *)
Definition getHistory (st : Z * js_array) : js_array := js_slice0 (st.1 + 1) st.2.

End NavigationState.

(** ** Further invariants *)

(** The screen shown is the screen of the entry the index names. *)
Definition shows_current_entry (s : container) : Prop :=
  ∃ e, js_index (navigationHistory s) (historyIndex s) = Some e
       ∧ screen e = currentScreen s.

(** While an animation is in progress, a timer that ends it is pending. *)
Definition timer_pending (s : container) : Prop :=
  animationInProgress s = true -> (0 < pendingTimers s)%nat.

(** The call is a [navigate] that is carried out. *)
Definition navigates (c : call) (s : container) : bool :=
  match c with
  | Navigate n _ _ => NavigationHelpers.isValidRoute n && negb (animationInProgress s)
  | _ => false
  end.

(** The callback numbered [id] is subscribed to the channel. *)
Definition subscribed_to (ch : channel) (id : nat) (s : container) : Prop :=
  id ∈ map hid (listeners s ch).

Definition is_call_of (ch : channel) (id : nat) (e : event) : bool :=
  match e with
  | Called ch' id' _ _ => bool_decide (ch' = ch) && bool_decide (id' = id)
  | _ => false
  end.

(** The call subscribes a callback numbered [id] to the channel. *)
Definition subscribes (ch : channel) (id : nat) (c : call) : bool :=
  match c with
  | AddListener ch' h => bool_decide (ch' = ch) && bool_decide (hid h = id)
  | _ => false
  end.


(** ** Favourites *)

(** A recipe as the components pass it around: its text fields. *)
Abbreviation recipe := (list (string * string)).

(** [fav.idMeal || fav.id]; [None] stands for [undefined]. *)
Definition favorite_key (fav : recipe) : option string :=
  match table_get fav "idMeal" with
  | Some s => if JsString.truthy s then Some s else table_get fav "id"
  | None => table_get fav "id"
  end.

(** [(fav.idMeal || fav.id) === recipeId]. *)
Definition is_favorite (recipeId : string) (fav : recipe) : bool :=
  bool_decide (favorite_key fav = Some recipeId).

(** [JSON.parse(localStorage.getItem('favoriteRecipes') || '[]')]: the
    item is absent or holds the list this code stored. *)
Definition stored_favorites (item : option (list recipe)) : list recipe := default [] item.

(** [l.findIndex(f)]; [None] stands for [-1]. *)
Fixpoint findIndex {A : Type} (f : A -> bool) (l : list A) : option nat :=
  match l with
  | [] => None
  | x :: l' => if f x then Some O else S <$> findIndex f l'
  end.

(** [showNotification(message, type)]. *)
Inductive notification : Type := Notification (message : string) (type : string).

(** The item stored, the notification shown and the flag passed to
    [updateFavoriteButton]. *)
Definition toggleFavorite (recipeId : string) (r : recipe) (item : option (list recipe))
  : option (list recipe) * notification * bool :=
  let favorites := stored_favorites item in
  match findIndex (is_favorite recipeId) favorites with
  | Some existingIndex =>
      (Some (delete existingIndex favorites),
       Notification "Removed from favorites" "info", false)
  | None =>
      (Some (favorites ++ [r])%list, Notification "Added to favorites!" "success", true)
  end.


(** [k] calls of [toggleFavorite] with the same arguments. *)
Fixpoint toggle_times (k : nat) (recipeId : string) (r : recipe)
    (item : option (list recipe)) : option (list recipe) :=
  match k with
  | O => item
  | S k' => toggle_times k' recipeId r (toggleFavorite recipeId r item).1.1
  end.

(** ** Recipe cards *)

(** [foods.find(food => food.idMeal === recipeId)]. *)
Definition find_food (foods : list recipe) (recipeId : string) : option recipe :=
  List.find (fun food => bool_decide (table_get food "idMeal" = Some recipeId)) foods.

(** [Recipe.handleRecipePress]: the call made on the navigation object,
    if any; [hasNavigation] tells whether [window.webNavigation] was set
    when the component was built. *)
Definition handleRecipePress (foods : list recipe) (hasNavigation : bool)
    (recipeId : string) : option call :=
  match find_food foods recipeId with
  | Some food =>
      if hasNavigation
      then Some (Navigate ROUTES.RECIPE_DETAIL [("recipe", VObject food)] None)
      else None
  | None => None
  end.

(** The container after a press on a recipe card. *)
Definition press (foods : list recipe) (recipeId : string) (s : container) : container :=
  match handleRecipePress foods true recipeId with
  | Some c => step s c
  | None => s
  end.

(** Texts are sequences of code units; [of_ascii] gives the code unit of
    an ASCII character, for the literals. *)
Section Text.

Context {code_unit : Type} (of_ascii : ascii -> code_unit).

Definition literal (s : string) : list code_unit :=
  map of_ascii (list_ascii_of_string s).

(** [Recipes.formatInstructions]. *)
Definition formatInstructions (instructions : list code_unit) : list code_unit :=
  if (100 <? length instructions)%nat
  then (take 100 instructions ++ literal "...")%list
  else instructions.

(** [Recipe.formatDescription]; [None] stands for [undefined] or [null]. *)
Definition formatDescription (instructions : option (list code_unit)) : list code_unit :=
  match instructions with
  | None | Some [] => literal "Delicious recipe with amazing flavors"
  | Some text =>
      if (80 <? length text)%nat
      then (take 80 text ++ literal "...")%list
      else text
  end.

End Text.



(** * Proofs *)

(** ** Basic facts about the monad and the emitter *)

Lemma log_nil (s : container) : log [] s = s.
Proof. destruct s; unfold log; cbn; by rewrite app_nil_r. Qed.

Lemma log_log (es es' : list event) (s : container) :
  log es' (log es s) = log (es ++ es') s.
Proof. unfold log; cbn; by rewrite app_assoc. Qed.

Lemma forEach_invoke (ch : channel) (data : payload) (hs : list handler) (s : container) :
  forEach hs (fun callback =>
      try_catch (invoke ch callback data)
                (fun error => console (ErrListener error))) s
  = (Return tt, log (emitted ch data (historyIndex s, navigationHistory s) hs) s).
Proof.
  revert s; induction hs as [|h hs IH]; intros s; cbn.
  - by rewrite log_nil.
  - unfold bind, try_catch, invoke, bind, getState, gets, emit, modify, console,
      emit, modify, throw, ret.
    destruct (throws h data); cbn; rewrite IH; cbn; by rewrite !log_log.
Qed.

Lemma emitNavigationEvent_spec (ch : channel) (data : payload) (s : container) :
  emitNavigationEvent ch data s
  = (Return tt,
     log (emitted ch data (historyIndex s, navigationHistory s) (listeners s ch)) s).
Proof. unfold emitNavigationEvent, bind, gets. apply forEach_invoke. Qed.

#[global] Arguments emitNavigationEvent : simpl never.

Ltac nav_unfold :=
  unfold step, perform, navigate, goBack, replace, reset, addListener, removeListener,
    animationTimer, storeParams, addToHistory, navigationState_emit,
    renderScreenWithAnimation, updateBrowserHistory, canGoBack, getCurrentRoute, getState,
    console, emit, modify, gets, ret, throw, bind.

Ltac nav_cbn :=
  cbn [fst snd currentScreen screenParams listeners animationInProgress navigationHistory
       historyIndex navigationState pendingTimers trace
       set_currentScreen set_screenParams set_listeners set_animationInProgress
       set_navigationHistory set_historyIndex set_navigationState set_pendingTimers log
       negb].

Ltac nav_run := nav_unfold; nav_cbn; repeat (rewrite emitNavigationEvent_spec; nav_cbn).

Lemma container_ext (s s' : container) :
  currentScreen s = currentScreen s' ->
  screenParams s = screenParams s' ->
  listeners s = listeners s' ->
  animationInProgress s = animationInProgress s' ->
  navigationHistory s = navigationHistory s' ->
  historyIndex s = historyIndex s' ->
  navigationState s = navigationState s' ->
  pendingTimers s = pendingTimers s' ->
  trace s = trace s' ->
  s = s'.
Proof. destruct s, s'; cbn; congruence. Qed.

(** Closes an equation between two end states, field by field; the
    traces may differ in how the appended effects are bracketed. *)
Ltac nav_eq :=
  f_equal; apply container_ext; nav_cbn;
  rewrite <- ?app_assoc; cbn [app]; rewrite <- ?app_assoc; reflexivity.

Lemma valid_has_config (n : string) :
  NavigationHelpers.isValidRoute n = true -> is_Some (table_get SCREEN_CONFIG n).
Proof.
  unfold NavigationHelpers.isValidRoute. intros H%bool_decide_eq_true.
  unfold ROUTES.values in H.
  repeat (apply elem_of_cons in H as [-> | H]; [by eexists|]).
  by apply elem_of_nil in H.
Qed.

(** ** The end state of each method, field by field *)

Lemma navigate_invalid (n : string) (p : params) (o : option string) (s : container) :
  NavigationHelpers.isValidRoute n = false ->
  navigate n p o s
  = (Return tt, log [Console (LogNavigating n p); Console (ErrNotInRegistry n)] s).
Proof. intros Hv. nav_run. rewrite Hv. nav_cbn. nav_eq. Qed.

Lemma navigate_blocked (n : string) (p : params) (o : option string) (s : container) :
  NavigationHelpers.isValidRoute n = true ->
  animationInProgress s = true ->
  navigate n p o s = (Return tt, log [Console (LogNavigating n p); Console LogBlocked] s).
Proof. intros Hv Ha. nav_run. rewrite Hv. nav_cbn. rewrite Ha. nav_cbn. nav_eq. Qed.

Lemma navigate_ok (n : string) (p : params) (o : option string) (s : container) :
  NavigationHelpers.isValidRoute n = true ->
  animationInProgress s = false ->
  navigate n p o s = (Return tt, navigated n p o s).
Proof.
  intros Hv Ha. destruct (valid_has_config _ Hv) as [c Hc].
  nav_run. rewrite Hv. nav_cbn. rewrite Ha. nav_run.
  unfold navigated, navigate_trace, pushed, merged, chosen_animation.
  destruct (JsString.truthy (currentScreen s)); nav_run; rewrite Hc; nav_run; nav_eq.
Qed.

Lemma goBack_at_root (s : container) :
  historyIndex s <= 0 ->
  goBack s = (Return tt, log [Console LogAtRoot] s).
Proof.
  intros H. nav_run. rewrite bool_decide_eq_false_2 by lia. reflexivity.
Qed.

Lemma goBack_ok (e : entry) (s : container) :
  0 < historyIndex s ->
  js_index (navigationHistory s) (historyIndex s - 1) = Some e ->
  goBack s = (Return tt, went_back e s).
Proof.
  intros H He. nav_run. rewrite bool_decide_eq_true_2 by lia. nav_run.
  rewrite He. nav_run.
  unfold went_back, back_trace, render_trace, render_timers, has_config.
  destruct e as [n p]; cbn [screen eparams].
  destruct (table_get SCREEN_CONFIG n); nav_run; nav_eq.
Qed.

Lemma goBack_undefined (s : container) :
  0 < historyIndex s ->
  js_index (navigationHistory s) (historyIndex s - 1) = None ->
  goBack s = (Throw TypeError, set_historyIndex (historyIndex s - 1) s).
Proof.
  intros H He. nav_run. rewrite bool_decide_eq_true_2 by lia. nav_run.
  rewrite He. reflexivity.
Qed.

Lemma replace_spec (n : string) (p : params) (s : container) :
  replace n p s = (Return tt, replaced n p s).
Proof.
  nav_run.
  unfold replaced, replace_trace, replaced_history, replaced_index, pushed, merged,
    render_trace, render_timers, has_config.
  destruct (bool_decide (0 < length (navigationHistory s))%nat);
    nav_run; destruct (table_get SCREEN_CONFIG n); nav_run; nav_eq.
Qed.

Lemma reset_spec (n : string) (p : params) (s : container) :
  reset n p s = (Return tt, reset_to n p s).
Proof.
  nav_run. unfold reset_to, reset_trace, render_trace, render_timers, has_config.
  destruct (table_get SCREEN_CONFIG n); nav_run; nav_eq.
Qed.

Lemma step_navigate (n : string) (p : params) (o : option string) (s : container) :
  step s (Navigate n p o)
  = if NavigationHelpers.isValidRoute n then
      if animationInProgress s
      then log [Console (LogNavigating n p); Console LogBlocked] s
      else navigated n p o s
    else log [Console (LogNavigating n p); Console (ErrNotInRegistry n)] s.
Proof.
  unfold step, perform.
  destruct (NavigationHelpers.isValidRoute n) eqn:Hv;
    [destruct (animationInProgress s) eqn:Ha|].
  - by rewrite navigate_blocked.
  - by rewrite navigate_ok.
  - by rewrite navigate_invalid.
Qed.

Lemma step_goBack (s : container) :
  step s GoBack
  = if bool_decide (0 < historyIndex s) then
      match js_index (navigationHistory s) (historyIndex s - 1) with
      | Some e => went_back e s
      | None => set_historyIndex (historyIndex s - 1) s
      end
    else log [Console LogAtRoot] s.
Proof.
  unfold step, perform. case_bool_decide.
  - destruct (js_index _ _) eqn:He.
    + by rewrite (goBack_ok e).
    + by rewrite goBack_undefined.
  - rewrite goBack_at_root by lia. reflexivity.
Qed.

Lemma step_goBack_entry (e : entry) (s : container) :
  0 < historyIndex s ->
  js_index (navigationHistory s) (historyIndex s - 1) = Some e ->
  step s GoBack = went_back e s.
Proof. intros Hi He. unfold step, perform. by rewrite (goBack_ok e). Qed.

Lemma step_replace (n : string) (p : params) (s : container) :
  step s (Replace n p) = replaced n p s.
Proof. unfold step, perform. by rewrite replace_spec. Qed.

Lemma step_reset (n : string) (p : params) (s : container) :
  step s (Reset n p) = reset_to n p s.
Proof. unfold step, perform. by rewrite reset_spec. Qed.

Lemma run_app (cs cs' : list call) (s : container) :
  run (cs ++ cs') s = run cs' (run cs s).
Proof. unfold run. apply fold_left_app. Qed.

(** ** The stack invariant *)

Lemma js_slice0_take (e : Z) (a : js_array) : ∃ k, js_slice0 e a = take k a.
Proof. unfold js_slice0. destruct (e <? 0); eauto. Qed.

Lemma pushed_ok (n : string) (p : params) (s : container) :
  Forall is_Some (navigationHistory s) ->
  0 <= Z.of_nat (length (pushed n p s)) - 1 < Z.of_nat (length (pushed n p s))
  ∧ Forall is_Some (pushed n p s).
Proof.
  intros Hs. unfold pushed. destruct (js_slice0_take (historyIndex s + 1) (navigationHistory s)) as [k ->].
  rewrite length_app. cbn [length]. split; [lia|].
  apply Forall_app. split; [by apply Forall_take|].
  apply Forall_cons. split; [by eexists | constructor].
Qed.

Lemma js_index_Some (a : js_array) (i : Z) :
  Forall is_Some a -> 0 <= i < Z.of_nat (length a) -> is_Some (js_index a i).
Proof.
  intros Ha Hi. unfold js_index. rewrite (proj2 (Z.ltb_ge _ _)) by lia.
  destruct (a !! Z.to_nat i) as [x|] eqn:Hx.
  - cbn. eapply Forall_lookup_1 in Ha; eauto.
  - apply lookup_ge_None in Hx. lia.
Qed.

(** Preserve: every call keeps the invariant. *)
Lemma step_stack_ok (s : container) (c : call) : stack_ok s -> stack_ok (step s c).
Proof.
  intros [Hi Hs]. destruct c as [n p o| |n p|n p|ch h|ch h|].
  - rewrite step_navigate.
    destruct (NavigationHelpers.isValidRoute n); [destruct (animationInProgress s)|];
      try (split; assumption).
    apply pushed_ok, Hs.
  - rewrite step_goBack. case_bool_decide; [|split; assumption].
    destruct (js_index _ _); split; cbn; try assumption; lia.
  - rewrite step_replace. unfold stack_ok, replaced, replaced_history, replaced_index.
    cbn. case_bool_decide.
    + unfold js_assign. rewrite (proj2 (Z.ltb_ge _ _)) by lia.
      rewrite (proj2 (Z.ltb_lt _ _)) by lia.
      rewrite length_insert. split; [lia|].
      apply Forall_insert; [assumption | by eexists].
    + apply pushed_ok, Hs.
  - rewrite step_reset. split; cbn; [lia|]. repeat constructor. by eexists.
  - split; assumption.
  - split; assumption.
  - unfold step, perform, animationTimer, bind, gets. cbn.
    destruct (pendingTimers s); split; assumption.
Qed.

Lemma run_stack_ok (cs : list call) (s : container) : stack_ok s -> stack_ok (run cs s).
Proof.
  revert s; induction cs as [|c cs IH]; intros s Hs; [assumption|].
  apply IH, step_stack_ok, Hs.
Qed.

(** Establish: the constructor seeds the stack. *)
Lemma constructor_navigated (hash : string) :
  ∃ s0, animationInProgress s0 = false
        ∧ Forall is_Some (navigationHistory s0)
        ∧ constructor hash = navigated ROUTES.WELCOME [] None s0.
Proof.
  unfold constructor, init, handleInitialRoute.
  destruct (JsString.truthy hash && bool_decide (1 < String.length hash)%nat)%bool;
    [destruct (findScreenByRoute _) as [n|]|];
    unfold addListener, addToHistory, modify, ret, bind; nav_cbn;
    (rewrite navigate_ok; [|reflexivity|reflexivity]);
    eexists; (split; [|split; [|reflexivity]]); try reflexivity; nav_cbn.
  - repeat constructor. by eexists.
  - constructor.
  - constructor.
Qed.

Lemma constructor_stack_ok (hash : string) : stack_ok (constructor hash).
Proof.
  destruct (constructor_navigated hash) as (s0 & _ & Hs & ->).
  apply pushed_ok, Hs.
Qed.

(** C1. After any finite sequence of navigate, replace, reset and goBack
    calls (and of listener registrations and animation timers between
    them) on a freshly constructed container, the index satisfies
    [0 <= historyIndex < navigationHistory.length] and the stack has at
    least one entry. *)
Theorem C1_index_within_stack (hash : string) (cs : list call) :
  0 <= historyIndex (run cs (constructor hash))
       < Z.of_nat (length (navigationHistory (run cs (constructor hash))))
  ∧ (1 <= length (navigationHistory (run cs (constructor hash))))%nat.
Proof.
  destruct (run_stack_ok cs _ (constructor_stack_ok hash)) as [Hi _].
  split; [exact Hi | lia].
Qed.

(** ** Effects of one call *)

Lemma since_log (es : list event) (s : container) : since s (log es s) = es.
Proof. unfold since, log; cbn. apply drop_app_length. Qed.

Lemma since_navigated n p o s : since s (navigated n p o s) = navigate_trace n p o s.
Proof. unfold since; cbn. apply drop_app_length. Qed.

Lemma since_went_back e s : since s (went_back e s) = back_trace e s.
Proof. unfold since; cbn. apply drop_app_length. Qed.

Lemma since_replaced n p s : since s (replaced n p s) = replace_trace n p s.
Proof. unfold since; cbn. apply drop_app_length. Qed.

Lemma since_reset_to n p s : since s (reset_to n p s) = reset_trace n p s.
Proof. unfold since; cbn. apply drop_app_length. Qed.

Lemma filter_emitted (f : event -> bool) ch data seen hs :
  (∀ h d st, f (Called ch h d st) = false) ->
  (∀ e, f (Console (ErrListener e)) = false) ->
  List.filter f (emitted ch data seen hs) = [].
Proof.
  intros Hc He. unfold emitted. induction hs as [|h hs IH]; [reflexivity|].
  cbn [flat_map]. rewrite List.filter_app, IH. cbn. rewrite Hc.
  destruct (throws h data); cbn; by rewrite ?He.
Qed.

Lemma filter_render_trace (f : event -> bool) n p a :
  (∀ n p a, f (Render n p a) = false) ->
  (∀ m, f (Console m) = false) ->
  List.filter f (render_trace n p a) = [].
Proof.
  intros Hr Hc. unfold render_trace. destruct (has_config n); cbn; by rewrite ?Hr, ?Hc.
Qed.

(** A successful [navigate] pushes one browser entry: the state
    [{ screen, params }] under the URL of the deep-link table. *)
Lemma navigate_pushes_state (n : string) (p : params) (o : option string) (s : container) :
  NavigationHelpers.isValidRoute n = true ->
  animationInProgress s = false ->
  List.filter is_browser_event (since s (step s (Navigate n p o)))
  = [PushState (Entry n p) (NavigationHelpers.getDeepLink n p)].
Proof.
  intros Hv Ha. rewrite step_navigate, Hv, Ha, since_navigated.
  unfold navigate_trace. rewrite !List.filter_app.
  rewrite !filter_emitted by done.
  destruct (JsString.truthy (currentScreen s)); rewrite ?filter_emitted by done; reflexivity.
Qed.

(** [replace] replaces the current browser entry. *)
Lemma replace_replaces_state (n : string) (p : params) (s : container) :
  List.filter is_browser_event (since s (step s (Replace n p)))
  = [ReplaceState (Entry n p) (NavigationHelpers.getDeepLink n p)].
Proof.
  rewrite step_replace, since_replaced. unfold replace_trace.
  rewrite !List.filter_app, !filter_emitted, filter_render_trace by done. reflexivity.
Qed.

(** C7. [reset] returns normally and writes nothing to the browser
    history: among the effects of [reset(screenName, params)] there is
    neither a [pushState] nor a [replaceState].  ([navigate] and
    [replace] each write one entry, by the two lemmas above.) *)
Theorem C7_reset_skips_browser_history (n : string) (p : params) (s : container) :
  reset n p s = (Return tt, reset_to n p s)
  ∧ List.filter is_browser_event (since s (step s (Reset n p))) = [].
Proof.
  split; [apply reset_spec|].
  rewrite step_reset, since_reset_to. unfold reset_trace.
  rewrite !List.filter_app, !filter_emitted, filter_render_trace by done. reflexivity.
Qed.

(** C8. When [canGoBack()] is false, [goBack()] only writes the
    at-root message to the console: the index, the stack and every other
    field are as before the call, and nothing is rendered. *)
Theorem C8_goBack_at_root_is_noop (s : container) :
  (canGoBack s).1 = Return false ->
  goBack s = (Return tt, log [Console LogAtRoot] s)
  ∧ historyIndex (step s GoBack) = historyIndex s
  ∧ navigationHistory (step s GoBack) = navigationHistory s
  ∧ currentScreen (step s GoBack) = currentScreen s
  ∧ screenParams (step s GoBack) = screenParams s
  ∧ animationInProgress (step s GoBack) = animationInProgress s
  ∧ pendingTimers (step s GoBack) = pendingTimers s
  ∧ since s (step s GoBack) = [Console LogAtRoot].
Proof.
  intros H.
  assert (Hi : historyIndex s <= 0).
  { unfold canGoBack, gets in H. cbn in H. case_bool_decide; [discriminate | lia]. }
  unfold step, perform. rewrite (goBack_at_root s Hi). cbn [snd].
  rewrite since_log. repeat split.
Qed.

Lemma C8_goBack_at_root_is_noop_witness :
  (canGoBack (constructor "")).1 = Return false
  ∧ since (constructor "") (step (constructor "") GoBack) = [Console LogAtRoot].
Proof.
  split; [reflexivity|].
  apply (C8_goBack_at_root_is_noop (constructor "")). reflexivity.
Defined.

(** ** Calls made during an animation, and calls that name no screen *)

(** The guard of [navigate]: while the flag is set the call only writes
    to the console. *)
Lemma navigate_ignored_while_animating (n : string) (p : params) (o : option string)
    (s : container) :
  animationInProgress s = true ->
  historyIndex (step s (Navigate n p o)) = historyIndex s
  ∧ navigationHistory (step s (Navigate n p o)) = navigationHistory s
  ∧ currentScreen (step s (Navigate n p o)) = currentScreen s
  ∧ List.filter is_callback_or_render (since s (step s (Navigate n p o))) = [].
Proof.
  intros Ha. rewrite step_navigate, Ha.
  destruct (NavigationHelpers.isValidRoute n); rewrite since_log; repeat split.
Qed.

(** C2. During the animation of [Home], [navigate] is ignored, but
    [goBack], [replace] and [reset] are carried out: each changes the
    index or the stack and renders a screen. *)
Theorem C2_only_navigate_is_blocked :
  animationInProgress animating_home = true
  ∧ historyIndex animating_home = 1
  ∧ navigationHistory animating_home
    = [Some (Entry "Welcome" []); Some (Entry "Home" [])]
  ∧ navigationHistory (step animating_home (Navigate "MyFood" [] None))
    = navigationHistory animating_home
  ∧ historyIndex (step animating_home GoBack) = 0
  ∧ since animating_home (step animating_home GoBack)
    = [Console (LogGoingBack "Welcome");
       Render "Welcome" [] "slide_from_left";
       PushState (Entry "Welcome" []) "/welcome"]
  ∧ navigationHistory (step animating_home (Replace "MyFood" []))
    = [Some (Entry "Welcome" []); Some (Entry "MyFood" [])]
  ∧ since animating_home (step animating_home (Replace "MyFood" []))
    = [Console (LogReplacing "MyFood" []);
       Render "MyFood" [] "fade";
       ReplaceState (Entry "MyFood" []) "/my-recipes"]
  ∧ navigationHistory (step animating_home (Reset "MyFood" []))
    = [Some (Entry "MyFood" [])]
  ∧ since animating_home (step animating_home (Reset "MyFood" []))
    = [Console (LogResetting "MyFood"); Render "MyFood" [] "fade"].
Proof. vm_compute. repeat split. Qed.

(** C3. Only [navigate] checks the screen name: on a fresh container
    [navigate('NoSuchScreen')] reports the name and leaves the stack,
    while [replace('NoSuchScreen')] and [reset('NoSuchScreen')] write
    the unregistered name into the stack and make it the current screen
    before the renderer reports it. *)
Theorem C3_replace_and_reset_accept_unknown_route :
  NavigationHelpers.isValidRoute "NoSuchScreen" = false
  ∧ navigationHistory (constructor "") = [Some (Entry "Welcome" [])]
  ∧ navigationHistory (step (constructor "") (Navigate "NoSuchScreen" [] None))
    = [Some (Entry "Welcome" [])]
  ∧ since (constructor "") (step (constructor "") (Navigate "NoSuchScreen" [] None))
    = [Console (LogNavigating "NoSuchScreen" []); Console (ErrNotInRegistry "NoSuchScreen")]
  ∧ navigationHistory (step (constructor "") (Replace "NoSuchScreen" []))
    = [Some (Entry "NoSuchScreen" [])]
  ∧ currentScreen (step (constructor "") (Replace "NoSuchScreen" [])) = "NoSuchScreen"
  ∧ since (constructor "") (step (constructor "") (Replace "NoSuchScreen" []))
    = [Console (LogReplacing "NoSuchScreen" []);
       Console (ErrScreenNotFound "NoSuchScreen");
       ReplaceState (Entry "NoSuchScreen" []) "/"]
  ∧ navigationHistory (step (constructor "") (Reset "NoSuchScreen" []))
    = [Some (Entry "NoSuchScreen" [])]
  ∧ currentScreen (step (constructor "") (Reset "NoSuchScreen" [])) = "NoSuchScreen"
  ∧ since (constructor "") (step (constructor "") (Reset "NoSuchScreen" []))
    = [Console (LogResetting "NoSuchScreen"); Console (ErrScreenNotFound "NoSuchScreen")].
Proof. vm_compute. repeat split. Qed.

(** An unregistered name never enters the stack through [navigate]. *)
Lemma navigate_unknown_route_unchanged (n : string) (p : params) (o : option string)
    (s : container) :
  NavigationHelpers.isValidRoute n = false ->
  step s (Navigate n p o)
  = log [Console (LogNavigating n p); Console (ErrNotInRegistry n)] s.
Proof. intros Hv. by rewrite step_navigate, Hv. Qed.

(** ** Result and effects of a call *)

Lemma since_same (s s' : container) : trace s' = trace s -> since s s' = [].
Proof. intros H. unfold since. rewrite H. apply drop_all. Qed.

Lemma since_step (c : call) (s : container) : since s (step s c) = effects c s.
Proof.
  destruct c as [n p o| |n p|n p|ch h|ch h|]; cbn [effects].
  - rewrite step_navigate.
    destruct (NavigationHelpers.isValidRoute n); [destruct (animationInProgress s)|];
      auto using since_log, since_navigated.
  - rewrite step_goBack. case_bool_decide; [|apply since_log].
    destruct (js_index _ _); [apply since_went_back | by apply since_same].
  - rewrite step_replace. apply since_replaced.
  - rewrite step_reset. apply since_reset_to.
  - by apply since_same.
  - by apply since_same.
  - apply since_same. unfold step, perform, animationTimer, bind, gets. cbn.
    by destruct (pendingTimers s).
Qed.

Lemma perform_completion (c : call) (s : container) : (perform c s).1 = completion c s.
Proof.
  destruct c as [n p o| |n p|n p|ch h|ch h|]; cbn [perform completion].
  - destruct (NavigationHelpers.isValidRoute n) eqn:Hv;
      [destruct (animationInProgress s) eqn:Ha|].
    + by rewrite navigate_blocked.
    + by rewrite navigate_ok.
    + by rewrite navigate_invalid.
  - case_bool_decide.
    + destruct (js_index _ _) eqn:He.
      * by rewrite (goBack_ok e).
      * by rewrite goBack_undefined.
    + rewrite goBack_at_root by lia. reflexivity.
  - by rewrite replace_spec.
  - by rewrite reset_spec.
  - reflexivity.
  - reflexivity.
  - unfold animationTimer, bind, gets. cbn. by destruct (pendingTimers s).
Qed.

(** ** Listeners that throw *)

Lemma emitted_callbacks ch data seen hs :
  List.filter is_callback_or_render (emitted ch data seen hs) = calls ch data seen hs.
Proof.
  unfold emitted. induction hs as [|h hs IH]; [reflexivity|].
  cbn [flat_map]. rewrite List.filter_app, IH. by destruct (throws h data).
Qed.

Lemma emitted_errors ch data seen hs :
  List.filter is_listener_error (emitted ch data seen hs) = logged_errors data hs.
Proof.
  unfold logged_errors, emitted. induction hs as [|h hs IH]; [reflexivity|].
  cbn [flat_map List.filter]. rewrite List.filter_app, IH.
  destruct (throws h data); reflexivity.
Qed.

Lemma emitted_without_errors ch data seen hs :
  without_listener_errors (emitted ch data seen hs) = calls ch data seen hs.
Proof.
  unfold without_listener_errors.
  unfold emitted. induction hs as [|h hs IH]; [reflexivity|].
  cbn [flat_map]. rewrite List.filter_app, IH. by destruct (throws h data).
Qed.

Lemma emitted_quiet ch data seen hs :
  emitted ch data seen (map quiet hs) = calls ch data seen hs.
Proof.
  unfold emitted. induction hs as [|h hs IH]; [reflexivity|].
  cbn [map flat_map]. rewrite IH. reflexivity.
Qed.

Lemma without_listener_errors_app es es' :
  without_listener_errors (es ++ es')
  = (without_listener_errors es ++ without_listener_errors es')%list.
Proof. apply List.filter_app. Qed.

Lemma render_trace_without_errors n p a :
  without_listener_errors (render_trace n p a) = render_trace n p a.
Proof. unfold render_trace. by destruct (has_config n). Qed.

(** The effects of a call on the pacified container are the effects on
    the container itself with the listener errors left out. *)
Lemma effects_pacified (c : call) (s : container) :
  without_listener_errors (effects c s) = effects c (pacified s).
Proof.
  destruct c as [n p o| |n p|n p|ch h|ch h|]; cbn [effects]; try reflexivity.
  - cbn [pacified set_listeners animationInProgress].
    destruct (NavigationHelpers.isValidRoute n); [destruct (animationInProgress s)|];
      try reflexivity.
    unfold navigate_trace, pushed. cbn [pacified set_listeners listeners currentScreen
      historyIndex navigationHistory fst snd].
    rewrite !without_listener_errors_app, !emitted_quiet.
    destruct (JsString.truthy (currentScreen s));
      rewrite ?emitted_without_errors; reflexivity.
  - cbn [pacified set_listeners historyIndex navigationHistory].
    case_bool_decide; [|reflexivity].
    destruct (js_index _ _) as [e|]; [|reflexivity].
    unfold back_trace. cbn [pacified set_listeners listeners currentScreen
      historyIndex navigationHistory].
    rewrite !without_listener_errors_app, !emitted_quiet, !emitted_without_errors,
      render_trace_without_errors. reflexivity.
  - unfold replace_trace, replaced_index, replaced_history, pushed.
    cbn [pacified set_listeners listeners currentScreen historyIndex navigationHistory].
    rewrite !without_listener_errors_app, !emitted_quiet, !emitted_without_errors,
      render_trace_without_errors. reflexivity.
  - unfold reset_trace.
    cbn [pacified set_listeners listeners currentScreen historyIndex navigationHistory].
    rewrite !without_listener_errors_app, !emitted_quiet, !emitted_without_errors,
      render_trace_without_errors. reflexivity.
Qed.

Lemma outcome_pacified (c : call) (s : container) :
  outcome (step s c) = outcome (step (pacified s) c).
Proof.
  destruct c as [n p o| |n p|n p|ch h|ch h|].
  - rewrite !step_navigate. cbn [pacified set_listeners animationInProgress].
    destruct (NavigationHelpers.isValidRoute n); [destruct (animationInProgress s)|];
      reflexivity.
  - rewrite !step_goBack. cbn [pacified set_listeners historyIndex navigationHistory].
    case_bool_decide; [|reflexivity]. destruct (js_index _ _); reflexivity.
  - rewrite !step_replace. reflexivity.
  - rewrite !step_reset. reflexivity.
  - reflexivity.
  - reflexivity.
  - unfold step, perform, animationTimer, bind, gets. cbn.
    by destruct (pendingTimers s).
Qed.

(** C9. An emission calls every callback of the channel, in
    registration order, whether or not some of them throw; each throw is
    caught and written to the console; the emission returns normally and
    changes no field but the trace; and a call on the container
    completes the same way, with the same fields and the same effects
    apart from those console errors, as it does when no callback throws. *)
Theorem C9_emission_isolates_listener_errors (ch : channel) (data : payload)
    (s : container) :
  (emitNavigationEvent ch data s).1 = Return tt
  ∧ List.filter is_callback_or_render (since s (emitNavigationEvent ch data s).2)
    = calls ch data (historyIndex s, navigationHistory s) (listeners s ch)
  ∧ List.filter is_listener_error (since s (emitNavigationEvent ch data s).2)
    = logged_errors data (listeners s ch)
  ∧ outcome (emitNavigationEvent ch data s).2 = outcome s
  ∧ (∀ c : call,
       (perform c s).1 = (perform c (pacified s)).1
       ∧ outcome (step s c) = outcome (step (pacified s) c)
       ∧ without_listener_errors (since s (step s c))
         = since (pacified s) (step (pacified s) c)).
Proof.
  rewrite emitNavigationEvent_spec. cbn [fst snd]. rewrite since_log.
  split; [reflexivity|]. split; [apply emitted_callbacks|].
  split; [apply emitted_errors|]. split; [reflexivity|].
  intros c. split; [|split].
  - rewrite !perform_completion. by destruct c.
  - apply outcome_pacified.
  - rewrite !since_step. apply effects_pacified.
Qed.

(** ** Order of the callbacks around [navigate] *)

Lemma emitted_calls_on ch' ch data seen hs :
  List.filter (is_call_on ch') (emitted ch data seen hs)
  = if bool_decide (ch = ch') then calls ch data seen hs else [].
Proof.
  unfold emitted. induction hs as [|h hs IH]; [by case_bool_decide|].
  cbn [flat_map]. rewrite List.filter_app, IH.
  destruct (throws h data); cbn; by case_bool_decide.
Qed.

Lemma length_calls ch data seen hs : length (calls ch data seen hs) = length hs.
Proof. unfold calls. apply length_map. Qed.

Lemma truthy_nonempty (x : string) : x ≠ "" -> JsString.truthy x = true.
Proof. by destruct x. Qed.

(** C5. A successful [navigate] from a container that has a current
    screen calls the subscribers channel by channel: those of
    [beforeRemove] while the stack is still the old one, then, on the
    new stack, those of [blur] with the previous screen, then the screen
    is rendered, then those of [focus] with the new screen, then those
    of [state]; and each channel is emitted once, so each of its
    subscribers is called once. *)
Theorem C5_navigate_callback_order (n : string) (p : params) (o : option string)
    (s : container) :
  NavigationHelpers.isValidRoute n = true ->
  animationInProgress s = false ->
  currentScreen s ≠ "" ->
  let s' := step s (Navigate n p o) in
  let old := (historyIndex s, navigationHistory s) in
  let new := (historyIndex s', navigationHistory s') in
  (navigate n p o s).1 = Return tt
  ∧ navigationHistory s' = pushed n p s
  ∧ List.filter is_callback_or_render (since s s')
    = (calls BEFORE_REMOVE (ActionData NAVIGATE n p) old (listeners s BEFORE_REMOVE)
       ++ calls BLUR (Target (currentScreen s)) new (listeners s BLUR)
       ++ [Render n p (chosen_animation n o)]
       ++ calls FOCUS (Target n) new (listeners s FOCUS)
       ++ calls STATE (StateData new.1 new.2) new (listeners s STATE))%list
  ∧ (∀ ch, length (List.filter (is_call_on ch) (since s s')) = length (listeners s ch)).
Proof.
  intros Hv Ha Hc. cbn zeta.
  rewrite navigate_ok, since_step by assumption.
  rewrite step_navigate, Hv, Ha. cbn [effects].
  rewrite Hv, Ha. unfold navigate_trace.
  rewrite (truthy_nonempty _ Hc).
  cbn [navigated historyIndex navigationHistory fst snd].
  split; [reflexivity|]. split; [reflexivity|]. split.
  - rewrite !List.filter_app, !emitted_callbacks. reflexivity.
  - intros ch. rewrite !List.filter_app, !emitted_calls_on, !length_app.
    cbn [List.filter is_call_on length].
    destruct ch; repeat case_bool_decide; try congruence;
      cbn [length]; rewrite ?length_calls; lia.
Qed.

Lemma C5_navigate_callback_order_witness :
  NavigationHelpers.isValidRoute "Home" = true
  ∧ animationInProgress subscribed = false
  ∧ currentScreen subscribed ≠ ""
  ∧ map (fun e => match e with Called ch h _ _ => Some (ch, h) | _ => None end)
        (List.filter is_callback_or_render
           (since subscribed (step subscribed (Navigate "Home" [] None))))
    = [Some (BEFORE_REMOVE, 1%nat); Some (BLUR, 2%nat); None; Some (FOCUS, 3%nat);
       Some (STATE, 0%nat); Some (STATE, 4%nat)].
Proof.
  assert (Hc : currentScreen subscribed ≠ "") by discriminate.
  split; [reflexivity|]. split; [reflexivity|]. split; [exact Hc|].
  destruct (C5_navigate_callback_order "Home" [] None subscribed eq_refl eq_refl Hc)
    as (_ & _ & -> & _).
  reflexivity.
Defined.

(** ** Forward history *)

Lemma js_index_elem (a : js_array) (i : Z) (e : entry) :
  js_index a i = Some e -> Some e ∈ a.
Proof.
  unfold js_index. destruct (i <? 0); [discriminate|].
  destruct (a !! Z.to_nat i) as [x|] eqn:Hx; [|discriminate].
  cbn. intros ->. eapply list_elem_of_lookup_2, Hx.
Qed.

Lemma elem_of_pushed (n : string) (p : params) (s : container) (e : entry) :
  Some e ∈ pushed n p s -> Some e ∈ navigationHistory s ∨ e = Entry n p.
Proof.
  unfold pushed. destruct (js_slice0_take (historyIndex s + 1) (navigationHistory s)) as [k ->].
  intros [H|H]%elem_of_app.
  - left. by apply (subseteq_take k).
  - right. apply list_elem_of_singleton in H. congruence.
Qed.

Lemma elem_of_js_assign (a : js_array) (i : Z) (x e : entry) :
  Some e ∈ js_assign a i x -> Some e ∈ a ∨ e = x.
Proof.
  unfold js_assign. destruct (i <? 0); [by left|].
  destruct (i <? Z.of_nat (length a)).
  - intros [j Hj]%list_elem_of_lookup.
    apply list_lookup_insert_Some in Hj as [(_ & Hx & _)|[_ Hj]].
    + right. congruence.
    + left. eapply list_elem_of_lookup_2, Hj.
  - intros [H|[H|H]%elem_of_app]%elem_of_app.
    + by left.
    + apply elem_of_replicate_inv in H. discriminate.
    + right. apply list_elem_of_singleton in H. congruence.
Qed.

Lemma step_unreachable (n : string) (s : container) (c : call) :
  names_screen n c = false -> unreachable n s -> unreachable n (step s c).
Proof.
  intros Hc [Hcur Hst]. destruct c as [n' p o| |n' p|n' p|ch h|ch h|]; cbn in Hc.
  - apply bool_decide_eq_false in Hc. rewrite step_navigate.
    destruct (NavigationHelpers.isValidRoute n'); [destruct (animationInProgress s)|];
      try (split; assumption).
    split; [exact Hc|]. cbn. intros e [He| ->]%elem_of_pushed; [by apply Hst | exact Hc].
  - rewrite step_goBack. case_bool_decide; [|split; assumption].
    destruct (js_index _ _) as [e|] eqn:He; [|split; assumption].
    apply js_index_elem in He. split; cbn; [by apply Hst | exact Hst].
  - apply bool_decide_eq_false in Hc. rewrite step_replace.
    split; [exact Hc|]. cbn. unfold replaced_history. case_bool_decide.
    + intros e [He| ->]%elem_of_js_assign; [by apply Hst | exact Hc].
    + intros e [He| ->]%elem_of_pushed; [by apply Hst | exact Hc].
  - apply bool_decide_eq_false in Hc. rewrite step_reset.
    split; [exact Hc|]. cbn. intros e He%list_elem_of_singleton.
    injection He as ->. exact Hc.
  - split; assumption.
  - split; assumption.
  - unfold step, perform, animationTimer, bind, gets. cbn.
    destruct (pendingTimers s); split; assumption.
Qed.

Lemma run_unreachable (n : string) (cs : list call) (s : container) :
  Forall (fun c => names_screen n c = false) cs ->
  unreachable n s -> unreachable n (run cs s).
Proof.
  revert s; induction cs as [|c cs IH]; intros s Hcs Hs; [assumption|].
  apply Forall_cons in Hcs as [Hc Hcs]. apply IH; [assumption|].
  by apply step_unreachable.
Qed.

Lemma step_timer (s : container) :
  step s AnimationTimer
  = match pendingTimers s with
    | O => s
    | S n => set_animationInProgress false (set_pendingTimers n s)
    end.
Proof.
  unfold step, perform, animationTimer, bind, gets, modify, ret. cbn.
  by destruct (pendingTimers s).
Qed.

(** The timer touches the animation flag and the count of timers only. *)
Lemma run_timers_fields (k : nat) (s : container) :
  navigationHistory (run (timers k) s) = navigationHistory s
  ∧ historyIndex (run (timers k) s) = historyIndex s
  ∧ currentScreen (run (timers k) s) = currentScreen s.
Proof.
  revert s; induction k as [|k IH]; intros s; [done|].
  change (run (timers (S k)) s) with (run (timers k) (step s AnimationTimer)).
  destruct (IH (step s AnimationTimer)) as (-> & -> & ->).
  rewrite step_timer. by destruct (pendingTimers s).
Qed.

Lemma run_timers_stay_idle (k : nat) (s : container) :
  animationInProgress s = false -> animationInProgress (run (timers k) s) = false.
Proof.
  revert s; induction k as [|k IH]; intros s Hs; [assumption|].
  change (run (timers (S k)) s) with (run (timers k) (step s AnimationTimer)).
  apply IH. rewrite step_timer. by destruct (pendingTimers s).
Qed.

(** Once a pending timer has fired, no animation is in progress. *)
Lemma run_timers_idle (k : nat) (s : container) :
  (0 < pendingTimers s)%nat -> animationInProgress (run (timers (S k)) s) = false.
Proof.
  intros Hp.
  change (run (timers (S k)) s) with (run (timers k) (step s AnimationTimer)).
  apply run_timers_stay_idle. rewrite step_timer.
  destruct (pendingTimers s); [lia | reflexivity].
Qed.

(** C4. From the stack [Home, RecipeDetail, FavoriteScreen] with index
    2, two [goBack] calls reach [Home] at index 0 and keep the stack;
    once an animation timer has fired after them, [navigate('MyFood', {})]
    leaves the stack [Home, MyFood] with index 1; and no later sequence
    of calls that does not itself name [RecipeDetail] or
    [FavoriteScreen] shows either screen or brings it back into the
    stack.  The timer may fire any number [a] of times between the two
    [goBack] calls and any number [S b] of times before [navigate]. *)
Theorem C4_forward_history_pruned (s : container) (pH pD pF : params) (a b : nat) :
  navigationHistory s
  = [Some (Entry "Home" pH); Some (Entry "RecipeDetail" pD);
     Some (Entry "FavoriteScreen" pF)] ->
  historyIndex s = 2 ->
  let back := run (GoBack :: timers a ++ [GoBack]) s in
  let s' := run (timers (S b) ++ [Navigate "MyFood" [] None]) back in
  historyIndex back = 0
  ∧ currentScreen back = "Home"
  ∧ navigationHistory back = navigationHistory s
  ∧ navigationHistory s' = [Some (Entry "Home" pH); Some (Entry "MyFood" [])]
  ∧ historyIndex s' = 1
  ∧ currentScreen s' = "MyFood"
  ∧ (∀ later : list call,
       Forall (fun c => names_screen "RecipeDetail" c = false) later ->
       Forall (fun c => names_screen "FavoriteScreen" c = false) later ->
       unreachable "RecipeDetail" (run later s')
       ∧ unreachable "FavoriteScreen" (run later s')).
Proof.
  intros Hh Hi. cbn zeta.
  (* the first goBack *)
  change (run (GoBack :: timers a ++ [GoBack]) s)
    with (run (timers a ++ [GoBack]) (step s GoBack)).
  rewrite (step_goBack_entry (Entry "RecipeDetail" pD) s); [|lia|by rewrite Hi, Hh].
  set (s1 := went_back (Entry "RecipeDetail" pD) s).
  rewrite run_app.
  destruct (run_timers_fields a s1) as (Hh1 & Hi1 & _).
  cbn [s1 went_back navigationHistory historyIndex] in Hh1, Hi1.
  (* the second goBack *)
  change (run [GoBack] (run (timers a) s1)) with (step (run (timers a) s1) GoBack).
  rewrite (step_goBack_entry (Entry "Home" pH));
    [|rewrite Hi1; lia|by rewrite Hi1, Hh1, Hi, Hh].
  set (back := went_back (Entry "Home" pH) (run (timers a) s1)).
  assert (Hhb : navigationHistory back = navigationHistory s) by exact Hh1.
  assert (Hib : historyIndex back = 0) by (cbn; lia).
  (* the timers, then navigate *)
  rewrite run_app.
  destruct (run_timers_fields (S b) back) as (Hh2 & Hi2 & _).
  assert (Ha2 : animationInProgress (run (timers (S b)) back) = false).
  { apply run_timers_idle. cbn [back went_back pendingTimers screen].
    unfold render_timers. change (has_config "Home") with true. cbn iota. lia. }
  set (idle := run (timers (S b)) back) in *.
  change (run [Navigate "MyFood" [] None] idle) with (step idle (Navigate "MyFood" [] None)).
  rewrite step_navigate, Ha2.
  change (NavigationHelpers.isValidRoute "MyFood") with true. cbn iota.
  assert (Hp : pushed "MyFood" [] idle
               = [Some (Entry "Home" pH); Some (Entry "MyFood" [])]).
  { unfold pushed. rewrite Hh2, Hi2, Hhb, Hib, Hh. reflexivity. }
  split; [exact Hib|]. split; [reflexivity|]. split; [exact Hhb|].
  split; [exact Hp|].
  split; [cbn [navigated historyIndex]; rewrite Hp; reflexivity|].
  split; [reflexivity|].
  intros later HD HF.
  split; (apply run_unreachable; [assumption|]); (split; [discriminate|]);
    cbn [navigated navigationHistory]; rewrite Hp;
    intros e He; repeat (apply elem_of_cons in He as [He|He]; [injection He as ->; discriminate|]);
    by apply elem_of_nil in He.
Qed.

Lemma C4_forward_history_pruned_witness :
  let s := run [ Reset "Home" []; AnimationTimer; Navigate "RecipeDetail" [] None;
                 AnimationTimer; Navigate "FavoriteScreen" [] None ] (constructor "") in
  navigationHistory s
  = [Some (Entry "Home" []); Some (Entry "RecipeDetail" []);
     Some (Entry "FavoriteScreen" [])]
  ∧ historyIndex s = 2
  ∧ navigationHistory
      (run [AnimationTimer; Navigate "MyFood" [] None] (run [GoBack; GoBack] s))
    = [Some (Entry "Home" []); Some (Entry "MyFood" [])].
Proof.
  cbn zeta. split; [reflexivity|]. split; [reflexivity|].
  apply (C4_forward_history_pruned _ [] [] [] 0 0); reflexivity.
Defined.

(** ** Parameter objects *)

Lemma obj_spread_assign (a b : params) :
  obj_spread a b = obj_assign (obj_assign [] a) b.
Proof. reflexivity. Qed.

Lemma obj_get_set (o : params) (k k' : string) (v : value) :
  obj_get (obj_set o k v) k' = if decide (k = k') then Some v else obj_get o k'.
Proof.
  induction o as [|[k0 v0] o IH]; cbn.
  - by repeat case_decide.
  - repeat (case_decide; cbn; subst); congruence.
Qed.

Lemma obj_keys_set (o : params) (k : string) (v : value) :
  obj_keys (obj_set o k v)
  = if bool_decide (k ∈ obj_keys o) then obj_keys o else (obj_keys o ++ [k])%list.
Proof.
  unfold obj_keys. induction o as [|[k0 v0] o IH]; cbn; [reflexivity|].
  destruct (decide (k0 = k)) as [->|Hk]; cbn.
  - rewrite bool_decide_eq_true_2 by left. reflexivity.
  - rewrite IH. destruct (decide (k ∈ o.*1)) as [Hin|Hnin].
    + rewrite !bool_decide_eq_true_2; [reflexivity | by right | assumption].
    + rewrite !bool_decide_eq_false_2;
        [reflexivity | intros [?|?]%elem_of_cons; congruence | assumption].
Qed.

Lemma obj_set_NoDup (o : params) (k : string) (v : value) :
  NoDup (obj_keys o) -> NoDup (obj_keys (obj_set o k v)).
Proof.
  intros H. rewrite obj_keys_set. case_bool_decide; [assumption|].
  apply NoDup_app. split; [assumption|]. split; [|apply NoDup_singleton].
  intros x Hx ->%list_elem_of_singleton. contradiction.
Qed.

Lemma obj_assign_NoDup (a b : params) :
  NoDup (obj_keys a) -> NoDup (obj_keys (obj_assign a b)).
Proof.
  revert a; induction b as [|[k v] b IH]; intros a Ha; [assumption|].
  apply IH, obj_set_NoDup, Ha.
Qed.

Lemma obj_spread_NoDup (a b : params) : NoDup (obj_keys (obj_spread a b)).
Proof. rewrite obj_spread_assign. apply obj_assign_NoDup, obj_assign_NoDup, NoDup_nil_2. Qed.

Lemma obj_get_None (o : params) (k : string) : k ∉ obj_keys o -> obj_get o k = None.
Proof.
  unfold obj_keys. induction o as [|[k0 v0] o IH]; cbn; [reflexivity|].
  intros Hk. apply not_elem_of_cons in Hk as [Hne Hk].
  rewrite decide_False by congruence. by apply IH.
Qed.

(** Keys that [b] does not have keep the value they have in [a]. *)
Lemma obj_get_assign_None (a b : params) (k : string) :
  obj_get b k = None -> obj_get (obj_assign a b) k = obj_get a k.
Proof.
  revert a; induction b as [|[k0 v0] b IH]; intros a; cbn; [reflexivity|].
  destruct (decide (k0 = k)) as [->|Hk]; [discriminate|]. intros Hb.
  unfold obj_assign in *. cbn. rewrite IH by assumption.
  rewrite obj_get_set. by rewrite decide_False.
Qed.

(** Keys of [b] take the value they have in [b]. *)
Lemma obj_get_assign_Some (a b : params) (k : string) (v : value) :
  NoDup (obj_keys b) -> obj_get b k = Some v -> obj_get (obj_assign a b) k = Some v.
Proof.
  revert a; induction b as [|[k0 v0] b IH]; intros a; cbn; [discriminate|].
  intros Hn%NoDup_cons. destruct Hn as [Hk Hn].
  unfold obj_assign in *. cbn. destruct (decide (k0 = k)) as [->|Hne].
  - intros [= ->]. fold (obj_assign (obj_set a k v) b).
    rewrite obj_get_assign_None by (by apply obj_get_None).
    rewrite obj_get_set. by rewrite decide_True.
  - intros Hb. by apply IH.
Qed.

Lemma obj_get_copy (a : params) (k : string) :
  NoDup (obj_keys a) -> obj_get (obj_assign [] a) k = obj_get a k.
Proof.
  intros Ha. destruct (obj_get a k) as [v|] eqn:Hk.
  - by apply obj_get_assign_Some.
  - by rewrite obj_get_assign_None.
Qed.

Lemma obj_get_spread_None (a b : params) (k : string) :
  NoDup (obj_keys a) -> obj_get b k = None -> obj_get (obj_spread a b) k = obj_get a k.
Proof.
  intros Ha Hb. rewrite obj_spread_assign, obj_get_assign_None by assumption.
  by apply obj_get_copy.
Qed.

Lemma obj_get_spread_Some (a b : params) (k : string) (v : value) :
  NoDup (obj_keys b) -> obj_get b k = Some v -> obj_get (obj_spread a b) k = Some v.
Proof. intros Hb Hk. rewrite obj_spread_assign. by apply obj_get_assign_Some. Qed.

(** ** Stored screen parameters *)

Lemma step_screenParams (n : string) (s : container) (c : call) :
  touches n c = false -> screenParams (step s c) !! n = screenParams s !! n.
Proof.
  intros Hc. destruct c as [n' p o| |n' p|n' p|ch h|ch h|]; cbn in Hc; try discriminate.
  - apply bool_decide_eq_false in Hc. rewrite step_navigate.
    destruct (NavigationHelpers.isValidRoute n'); [destruct (animationInProgress s)|];
      try reflexivity.
    cbn. unfold merged. by rewrite lookup_insert_ne.
  - rewrite step_goBack. case_bool_decide; [|reflexivity].
    by destruct (js_index _ _).
  - apply bool_decide_eq_false in Hc. rewrite step_replace.
    cbn. unfold merged. by rewrite lookup_insert_ne.
  - reflexivity.
  - reflexivity.
  - unfold step, perform, animationTimer, bind, gets. cbn. by destruct (pendingTimers s).
Qed.

Lemma run_screenParams (n : string) (cs : list call) (s : container) :
  Forall (fun c => touches n c = false) cs ->
  screenParams (run cs s) !! n = screenParams s !! n.
Proof.
  revert s; induction cs as [|c cs IH]; intros s Hcs; [reflexivity|].
  apply Forall_cons in Hcs as [Hc Hcs]. cbn. rewrite IH by assumption.
  by apply step_screenParams.
Qed.

(** C10. The parameters stored for a screen accumulate: after
    [navigate(R, p1)] and, later, [navigate(R, p2)] (both carried out,
    and no call in between that resets the container or targets [R]),
    the stored parameters of [R] are what was stored before, spread with
    [p1] and then with [p2]; [getCurrentRoute()] reports them; a key of
    [p1] that [p2] lacks keeps the value of [p1], and a key of [p2] has
    the value of [p2]. *)
Theorem C10_screen_params_accumulate (R : string) (p1 p2 : params)
    (o1 o2 : option string) (mid : list call) (s : container) :
  NavigationHelpers.isValidRoute R = true ->
  animationInProgress s = false ->
  Forall (fun c => touches R c = false) mid ->
  animationInProgress (run mid (step s (Navigate R p1 o1))) = false ->
  let s2 := step (run mid (step s (Navigate R p1 o1))) (Navigate R p2 o2) in
  let stored := obj_spread (obj_spread (default [] (screenParams s !! R)) p1) p2 in
  screenParams s2 !! R = Some stored
  ∧ (getCurrentRoute s2).1 = Return (R, stored)
  ∧ (∀ k v, NoDup (obj_keys p1) -> obj_get p1 k = Some v -> obj_get p2 k = None ->
            obj_get stored k = Some v)
  ∧ (∀ k v, NoDup (obj_keys p2) -> obj_get p2 k = Some v -> obj_get stored k = Some v).
Proof.
  intros Hv Ha Hmid Ha'. cbn zeta.
  assert (Hs : screenParams (step (run mid (step s (Navigate R p1 o1))) (Navigate R p2 o2)) !! R
               = Some (obj_spread (obj_spread (default [] (screenParams s !! R)) p1) p2)).
  { rewrite (step_navigate R p2), Hv, Ha'. cbn [navigated screenParams]. unfold merged.
    rewrite lookup_insert_eq, run_screenParams by assumption.
    rewrite step_navigate, Hv, Ha. cbn [navigated screenParams]. unfold merged.
    by rewrite lookup_insert_eq. }
  split; [exact Hs|]. split.
  - unfold getCurrentRoute, gets. cbn [fst].
    assert (Hc : currentScreen (step (run mid (step s (Navigate R p1 o1))) (Navigate R p2 o2)) = R).
    { by rewrite (step_navigate R p2), Hv, Ha'. }
    rewrite Hc, Hs. reflexivity.
  - split.
    + intros k v Hn Hk1 Hk2.
      rewrite obj_get_spread_None by (apply obj_spread_NoDup || assumption).
      by apply obj_get_spread_Some.
    + intros k v Hn Hk2. by apply obj_get_spread_Some.
Qed.

Lemma C10_screen_params_accumulate_witness :
  let s := run [AnimationTimer] (constructor "") in
  NavigationHelpers.isValidRoute "RecipeDetail" = true
  ∧ animationInProgress s = false
  ∧ (getCurrentRoute
       (step (run [AnimationTimer] (step s (Navigate "RecipeDetail" [("id", VStr "42")] None)))
             (Navigate "RecipeDetail" [] None))).1
    = Return ("RecipeDetail", [("id", VStr "42")]).
Proof.
  cbn zeta. split; [reflexivity|]. split; [reflexivity|].
  apply (C10_screen_params_accumulate "RecipeDetail" [("id", VStr "42")] [] None None
           [AnimationTimer] (run [AnimationTimer] (constructor "")));
    [reflexivity | reflexivity | repeat constructor | reflexivity].
Defined.

(** ** Deep links *)

Lemma append_empty_r (s : string) : (s ++ "")%string = s.
Proof.
  induction s as [|c s IH]; [reflexivity|].
  change (String c (s ++ "")%string = String c s). by rewrite IH.
Qed.

Lemma getSubstitution_free (matched before after v : string) :
  subst_free v = true -> JsString.getSubstitution matched before after v = v.
Proof.
  induction v as [|c r IH]; [reflexivity|].
  cbn [subst_free JsString.getSubstitution].
  destruct (decide (c = "$"%char)) as [->|Hc].
  - destruct r as [|d r']; [reflexivity|].
    repeat (case_decide; [discriminate|]). intros Hr. by rewrite IH.
  - intros Hr. by rewrite IH.
Qed.

Lemma split_without_separator (c : ascii) (v : string) :
  contains c v = false -> JsString.split c v = [v].
Proof.
  induction v as [|d v IH]; cbn; [reflexivity|].
  case_decide; [discriminate|]. intros Hv. by rewrite IH.
Qed.

Lemma getDeepLink_recipe (v : string) :
  NavigationHelpers.getDeepLink ROUTES.RECIPE_DETAIL [("id", VStr v)]
  = ("/recipe/" ++ JsString.getSubstitution ":id" "/recipe/" "" v)%string.
Proof.
  unfold NavigationHelpers.getDeepLink. cbn [obj_keys fmap list_fmap fst fold_left].
  change (table_get DEEP_LINKS ROUTES.RECIPE_DETAIL) with (Some "/recipe/:id").
  cbn [JsString.truthy obj_get]. rewrite decide_True by reflexivity.
  cbn [default toString]. unfold JsString.replace.
  change (JsString.find_first (":" ++ "id") "/recipe/:id") with (Some ("/recipe/", "")).
  cbn iota. by rewrite append_empty_r.
Qed.

Lemma append_cons (c : ascii) (s t : string) :
  (String c s ++ t)%string = String c (s ++ t)%string.
Proof. reflexivity. Qed.

Lemma parseDeepLink_recipe (v : string) :
  JsString.truthy v = true -> contains "/"%char v = false ->
  NavigationHelpers.parseDeepLink ("/recipe/" ++ v) = (ROUTES.RECIPE_DETAIL, [("id", VStr v)]).
Proof.
  intros Hv Hs. unfold NavigationHelpers.parseDeepLink, NavigationHelpers.segments.
  assert (Hsplit : JsString.split "/"%char ("/recipe/" ++ v) = [""; "recipe"; v]).
  { rewrite !append_cons. change ("" ++ v)%string with v.
    cbn. by rewrite split_without_separator. }
  rewrite Hsplit. cbn [List.filter JsString.truthy]. rewrite Hv. reflexivity.
Qed.

(** The two links of the scenario. *)
Example getDeepLink_recipe_42 :
  NavigationHelpers.getDeepLink "RecipeDetail" [("id", VStr "42")] = "/recipe/42".
Proof. reflexivity. Qed.

Example parseDeepLink_recipe_42 :
  NavigationHelpers.parseDeepLink "/recipe/42" = ("RecipeDetail", [("id", VStr "42")]).
Proof. reflexivity. Qed.

(** The round trip is lost when the [id] spans two path segments, is
    empty, or holds a replacement pattern of [String.prototype.replace]. *)
Lemma C6_round_trip_counterexample :
  NavigationHelpers.isValidRoute "RecipeDetail" = true
  ∧ NavigationHelpers.parseDeepLink
      (NavigationHelpers.getDeepLink "RecipeDetail" [("id", VStr "a/b")])
    ≠ ("RecipeDetail", [("id", VStr "a/b")])
  ∧ NavigationHelpers.parseDeepLink
      (NavigationHelpers.getDeepLink "RecipeDetail" [("id", VStr "")])
    ≠ ("RecipeDetail", [("id", VStr "")])
  ∧ NavigationHelpers.parseDeepLink
      (NavigationHelpers.getDeepLink "RecipeDetail" [("id", VStr "$&")])
    ≠ ("RecipeDetail", [("id", VStr "$&")]).
Proof. vm_compute. repeat split; discriminate. Qed.

(** C6. For a registered route and the parameters of its path template
    (an [id] that is one non-empty path segment without replacement
    patterns for [RecipeDetail], no parameter for the other routes), the
    link of the route parses back to the route and the parameters; the
    link of [RecipeDetail] is [/recipe/] followed by the [id]. *)
Theorem C6_deep_link_round_trip (r : string) (p : params) :
  NavigationHelpers.isValidRoute r = true ->
  template_params r p ->
  NavigationHelpers.parseDeepLink (NavigationHelpers.getDeepLink r p) = (r, p)
  ∧ (∀ v, p = [("id", VStr v)] -> r = ROUTES.RECIPE_DETAIL ->
          NavigationHelpers.getDeepLink r p = ("/recipe/" ++ v)%string).
Proof.
  unfold NavigationHelpers.isValidRoute. intros Hr%bool_decide_eq_true Hp.
  unfold ROUTES.values in Hr.
  repeat (apply elem_of_cons in Hr as [-> | Hr]);
    try (by apply elem_of_nil in Hr);
    try (cbv in Hp; subst p; split; [reflexivity | discriminate]).
  unfold template_params in Hp. rewrite decide_True in Hp by reflexivity.
  destruct Hp as (v & -> & Hv). unfold path_segment in Hv.
  apply andb_prop in Hv as [Hv Hf]. apply andb_prop in Hv as [Hv Hs].
  apply negb_true_iff in Hs.
  rewrite getDeepLink_recipe, getSubstitution_free by assumption.
  split; [by apply parseDeepLink_recipe|].
  intros v' [= ->] _. reflexivity.
Qed.

Lemma C6_deep_link_round_trip_witness :
  NavigationHelpers.isValidRoute "RecipeDetail" = true
  ∧ template_params "RecipeDetail" [("id", VStr "42")]
  ∧ NavigationHelpers.parseDeepLink
      (NavigationHelpers.getDeepLink "RecipeDetail" [("id", VStr "42")])
    = ("RecipeDetail", [("id", VStr "42")]).
Proof.
  assert (Hp : template_params "RecipeDetail" [("id", VStr "42")]).
  { unfold template_params. rewrite decide_True by reflexivity. by exists "42". }
  split; [reflexivity|]. split; [exact Hp|].
  apply (C6_deep_link_round_trip "RecipeDetail" [("id", VStr "42")] eq_refl Hp).
Defined.

(** * Further properties *)

(** ** The page events, field by field *)

Lemma handleInitialRoute_spec (hash : string) (s : container) :
  handleInitialRoute hash s = (Return tt, initial_route hash s).
Proof.
  unfold handleInitialRoute, initial_route.
  destruct (JsString.truthy hash && bool_decide (1 < String.length hash)%nat)%bool;
    [|reflexivity].
  destruct (findScreenByRoute _) as [n|]; [|reflexivity].
  nav_run. unfold pushed. nav_eq.
Qed.

Lemma find_entry_total (st : entry) (a : js_array) :
  Forall is_Some a -> ∃ found, find_entry st a = Return found.
Proof.
  induction 1 as [|x a [h ->] _ [found IH]]; cbn; [by eexists|].
  destruct (_ && _)%bool; [by eexists|].
  rewrite IH. destruct found as [[i h']|]; by eexists.
Qed.

(** The entry found is the first one with the screen and the JSON text
    of the state. *)
Lemma find_entry_found (st : entry) (a : js_array) (i : nat) (h : entry) :
  find_entry st a = Return (Some (i, h)) ->
  a !! i = Some (Some h)
  ∧ screen h = screen st
  ∧ json_equal (eparams h) (eparams st) = true
  ∧ (∀ j h', (j < i)%nat -> a !! j = Some (Some h') ->
             screen h' = screen st -> json_equal (eparams h') (eparams st) = false).
Proof.
  revert i; induction a as [|[x|] a IH]; intros i; cbn; try discriminate.
  destruct (bool_decide (screen x = screen st) && json_equal (eparams x) (eparams st))%bool
    eqn:Hm.
  - intros [= <- <-]. apply andb_prop in Hm as [Hs%bool_decide_eq_true Hj].
    repeat split; try done. intros j h' Hj'. lia.
  - destruct (find_entry st a) as [[[i' h'']|]|] eqn:Hf; try discriminate.
    intros [= <- <-]. destruct (IH i' eq_refl) as (Hl & Hs & Hj & Hbefore).
    repeat split; try done.
    intros [|j] h' Hlt; cbn.
    + intros [= ->] Hs'. apply andb_false_iff in Hm as [Hm|Hm]; [|exact Hm].
      apply bool_decide_eq_false in Hm. contradiction.
    + intros Hl'. apply (Hbefore j); [lia | exact Hl'].
Qed.

Lemma find_entry_none (st : entry) (a : js_array) (h : entry) :
  find_entry st a = Return None -> Some h ∈ a ->
  screen h = screen st -> json_equal (eparams h) (eparams st) = false.
Proof.
  induction a as [|[x|] a IH]; cbn; try discriminate.
  - intros _ H%elem_of_nil. done.
  - destruct (bool_decide (screen x = screen st) && json_equal (eparams x) (eparams st))%bool
      eqn:Hm; [discriminate|].
    destruct (find_entry st a) as [[[i' h'']|]|] eqn:Hf; try discriminate.
    intros _ [[= ->]|Hin]%elem_of_cons Hs.
    + apply andb_false_iff in Hm as [Hm|Hm]; [|exact Hm].
      apply bool_decide_eq_false in Hm. contradiction.
    + by apply IH.
Qed.

Lemma handlePopState_spec (st : entry) (hash : string) (s : container) :
  JsString.truthy (screen st) = true ->
  handlePopState (Some st) hash s
  = match find_entry st (navigationHistory s) with
    | Return found => (Return tt, popped st found s)
    | Throw e => (Throw e, pop_interrupted st s)
    end.
Proof.
  intros Ht. unfold handlePopState. rewrite Ht. unfold attempt.
  unfold popped, pop_interrupted, render_trace, render_timers, has_config.
  nav_run. destruct (table_get SCREEN_CONFIG (screen st)); nav_run;
    (destruct (find_entry st (navigationHistory s)) as [[[i h]|]|]; nav_run; nav_eq).
Qed.

Lemma handlePopState_no_state (state : option entry) (hash : string) (s : container) :
  match state with Some st => JsString.truthy (screen st) = false | None => True end ->
  handlePopState state hash s = (Return tt, initial_route hash s).
Proof.
  unfold handlePopState. destruct state as [st|].
  - intros ->. apply handleInitialRoute_spec.
  - intros _. apply handleInitialRoute_spec.
Qed.

Lemma goBack_pair (s : container) : goBack s = (completion GoBack s, step s GoBack).
Proof.
  rewrite <- (perform_completion GoBack s). unfold step. cbn [perform].
  by destruct (goBack s).
Qed.

Lemma page_step_keydown (altKey : bool) (key : string) (s : container) :
  page_step s (KeyDown altKey key)
  = if (altKey && bool_decide (key = "ArrowLeft"))%bool then step s GoBack
    else if (bool_decide (key = "Escape") && bool_decide (0 < historyIndex s))%bool
         then step s GoBack
         else s.
Proof.
  unfold page_step, handle, handleKeyDown.
  destruct (altKey && bool_decide (key = "ArrowLeft"))%bool eqn:Ha.
  - apply andb_prop in Ha as [_ Hk%bool_decide_eq_true]. subst key.
    unfold bind at 1. rewrite goBack_pair.
    destruct (completion GoBack s); [|reflexivity].
    unfold bind, canGoBack, gets, ret. reflexivity.
  - unfold bind, canGoBack, gets, ret. cbn [fst snd].
    destruct (bool_decide (key = "Escape") && bool_decide (0 < historyIndex s))%bool;
      [|reflexivity].
    by rewrite goBack_pair.
Qed.

(** ** What the constructor leaves *)

Lemma constructor_eq (hash : string) :
  constructor hash
  = navigated ROUTES.WELCOME [] None
      (set_listeners
         (fun ch => if decide (ch = STATE)
                    then (listeners (initial_route hash fresh) ch ++ [performanceMonitor])%list
                    else listeners (initial_route hash fresh) ch)
         (initial_route hash fresh)).
Proof.
  unfold constructor, init. unfold bind at 1. rewrite handleInitialRoute_spec.
  unfold bind, addListener, modify. rewrite navigate_ok; [reflexivity|reflexivity|].
  unfold initial_route. destruct (_ && _)%bool; [|reflexivity].
  by destruct (findScreenByRoute _).
Qed.


(** ** Invariants over calls and page events *)

Lemma page_step_stack_ok (s : container) (e : page_event) :
  stack_ok s -> stack_ok (page_step s e).
Proof.
  intros Hs. destruct e as [c|state hash|altKey key].
  - by apply step_stack_ok.
  - assert (Hi : stack_ok (initial_route hash s)).
    { unfold initial_route.
      destruct (_ && _)%bool; [|exact Hs]. destruct (findScreenByRoute _); [|exact Hs].
      apply pushed_ok, Hs. }
    unfold page_step, handle. destruct state as [st|].
    + destruct (JsString.truthy (screen st)) eqn:Ht.
      * rewrite handlePopState_spec by exact Ht.
        destruct (find_entry_total st _ (proj2 Hs)) as [found Hf]. rewrite Hf.
        destruct found as [[i h]|]; [|exact Hs].
        apply find_entry_found in Hf as (Hl & _).
        apply lookup_lt_Some in Hl. destruct Hs as [_ Hs]. split; [cbn; lia | exact Hs].
      * by rewrite handlePopState_no_state.
    + by rewrite handlePopState_no_state.
  - rewrite page_step_keydown.
    repeat (destruct (_ && _)%bool); auto using step_stack_ok.
Qed.

Lemma step_timer_pending (s : container) (c : call) :
  timer_pending s -> timer_pending (step s c).
Proof.
  unfold timer_pending. intros Hs.
  assert (Hr : ∀ n t, has_config n = true -> (0 < render_timers n t)%nat).
  { intros n t Hn. unfold render_timers. rewrite Hn. lia. }
  destruct c as [n p o| |n p|n p|ch h|ch h|].
  - rewrite step_navigate.
    destruct (NavigationHelpers.isValidRoute n); [destruct (animationInProgress s) eqn:Ha|];
      cbn; auto with lia.
  - rewrite step_goBack. case_bool_decide; [|exact Hs].
    destruct (js_index _ _); cbn; auto.
  - rewrite step_replace. cbn. auto.
  - rewrite step_reset. cbn. auto.
  - exact Hs.
  - exact Hs.
  - rewrite step_timer. destruct (pendingTimers s) eqn:Hp; [by rewrite Hp|].
    cbn. discriminate.
Qed.

Lemma page_step_timer_pending (s : container) (e : page_event) :
  timer_pending s -> timer_pending (page_step s e).
Proof.
  intros Hs. destruct e as [c|state hash|altKey key].
  - by apply step_timer_pending.
  - assert (Hi : timer_pending (initial_route hash s)).
    { unfold initial_route.
      destruct (_ && _)%bool; [|exact Hs]. destruct (findScreenByRoute _); exact Hs. }
    unfold page_step, handle. destruct state as [st|].
    + destruct (JsString.truthy (screen st)) eqn:Ht.
      * rewrite handlePopState_spec by exact Ht.
        destruct (find_entry st _) as [found|err]; unfold timer_pending; cbn;
          unfold render_timers; intros ->; lia.
      * by rewrite handlePopState_no_state.
    + by rewrite handlePopState_no_state.
  - rewrite page_step_keydown.
    repeat (destruct (_ && _)%bool); auto using step_timer_pending.
Qed.

Lemma page_run_invariant (es : list page_event) (s : container) :
  stack_ok s ∧ timer_pending s -> stack_ok (page_run es s) ∧ timer_pending (page_run es s).
Proof.
  revert s; induction es as [|e es IH]; intros s [Hs Ht]; [by split|].
  apply IH. split; [by apply page_step_stack_ok | by apply page_step_timer_pending].
Qed.

Lemma constructor_timer_pending (hash : string) : timer_pending (constructor hash).
Proof.
  destruct (constructor_navigated hash) as (s0 & _ & _ & ->).
  unfold timer_pending. cbn. lia.
Qed.

(** X2. The index stays inside the stack, and the stack non-empty, also
    when the browser delivers [popstate] events (with any state and any
    hash) and the keyboard delivers key presses between the calls. *)
Theorem page_events_keep_index_within_stack (hash : string) (es : list page_event) :
  0 <= historyIndex (page_run es (constructor hash))
       < Z.of_nat (length (navigationHistory (page_run es (constructor hash))))
  ∧ Forall is_Some (navigationHistory (page_run es (constructor hash))).
Proof.
  destruct (page_run_invariant es (constructor hash)) as [Hs _]; [|exact Hs].
  split; [apply constructor_stack_ok | apply constructor_timer_pending].
Qed.

(** X3. The animation flag is never left set without a timer to clear
    it: after any calls and page events, one firing of the timer leaves
    no animation in progress, and a [navigate] to a registered screen is
    then carried out. *)
Theorem navigate_unblocked_by_timer (hash : string) (es : list page_event)
    (n : string) (p : params) (o : option string) :
  NavigationHelpers.isValidRoute n = true ->
  let s := page_run (es ++ [Api AnimationTimer]) (constructor hash) in
  animationInProgress s = false
  ∧ navigate n p o s = (Return tt, navigated n p o s).
Proof.
  intros Hv. cbn zeta.
  assert (Ha : animationInProgress (page_run (es ++ [Api AnimationTimer]) (constructor hash))
               = false).
  { unfold page_run. rewrite fold_left_app. cbn [fold_left].
    fold (page_run es (constructor hash)).
    destruct (page_run_invariant es (constructor hash)) as [_ Ht];
      [split; [apply constructor_stack_ok | apply constructor_timer_pending]|].
    unfold page_step, handle. fold (step (page_run es (constructor hash)) AnimationTimer).
    rewrite step_timer. unfold timer_pending in Ht.
    destruct (pendingTimers _) eqn:Hp; [|reflexivity].
    destruct (animationInProgress _); [|reflexivity]. specialize (Ht eq_refl). lia. }
  split; [exact Ha|]. by apply navigate_ok.
Qed.

Lemma navigate_unblocked_by_timer_witness :
  NavigationHelpers.isValidRoute "Home" = true
  ∧ currentScreen
      (navigate "Home" [] None
         (page_run ([KeyDown false "Escape"] ++ [Api AnimationTimer]) (constructor ""))).2
    = "Home".
Proof.
  split; [reflexivity|].
  destruct (navigate_unblocked_by_timer "" [KeyDown false "Escape"] "Home" [] None eq_refl)
    as [_ ->].
  reflexivity.
Defined.

(** ** The entry the index names *)

Lemma js_index_lookup (a : js_array) (i : nat) (e : entry) :
  a !! i = Some (Some e) -> js_index a (Z.of_nat i) = Some e.
Proof.
  intros H. unfold js_index. rewrite (proj2 (Z.ltb_ge _ _)) by lia.
  by rewrite Nat2Z.id, H.
Qed.

Lemma js_index_pushed (n : string) (p : params) (s : container) :
  js_index (pushed n p s) (Z.of_nat (length (pushed n p s)) - 1) = Some (Entry n p).
Proof.
  unfold pushed. destruct (js_slice0_take (historyIndex s + 1) (navigationHistory s)) as [k ->].
  rewrite length_app. cbn [length].
  replace (Z.of_nat (length (take k (navigationHistory s)) + 1) - 1)
    with (Z.of_nat (length (take k (navigationHistory s)))) by lia.
  apply js_index_lookup. rewrite lookup_app_r by lia.
  by rewrite Nat.sub_diag.
Qed.

Lemma js_index_assign (a : js_array) (i : Z) (x : entry) :
  0 <= i < Z.of_nat (length a) -> js_index (js_assign a i x) i = Some x.
Proof.
  intros Hi. unfold js_assign, js_index.
  rewrite (proj2 (Z.ltb_ge _ _)) by lia. rewrite (proj2 (Z.ltb_lt _ _)) by lia.
  rewrite list_lookup_insert_eq by lia. reflexivity.
Qed.

Lemma js_assign_in_range (a : js_array) (i : Z) (x : entry) :
  0 <= i < Z.of_nat (length a) -> js_assign a i x = <[Z.to_nat i := Some x]> a.
Proof.
  intros Hi. unfold js_assign.
  rewrite (proj2 (Z.ltb_ge _ _)) by lia. by rewrite (proj2 (Z.ltb_lt _ _)) by lia.
Qed.

Lemma js_slice0_in_range (a : js_array) (e : Z) :
  0 <= e -> js_slice0 e a = take (Z.to_nat e) a.
Proof. intros He. unfold js_slice0. by rewrite (proj2 (Z.ltb_ge _ _)) by lia. Qed.

Lemma stack_ok_nonempty (s : container) :
  stack_ok s -> bool_decide (0 < length (navigationHistory s))%nat = true.
Proof. intros [Hi _]. apply bool_decide_eq_true. lia. Qed.

Lemma step_shows_current_entry (s : container) (c : call) :
  stack_ok s -> shows_current_entry s -> shows_current_entry (step s c).
Proof.
  intros Hs Hc. pose proof Hs as [Hi Hh].
  destruct c as [n p o| |n p|n p|ch h|ch h|].
  - rewrite step_navigate.
    destruct (NavigationHelpers.isValidRoute n); [destruct (animationInProgress s)|];
      try exact Hc.
    exists (Entry n p). split; [apply js_index_pushed | reflexivity].
  - rewrite step_goBack. case_bool_decide; [|exact Hc].
    destruct (js_index_Some (navigationHistory s) (historyIndex s - 1) Hh) as [e He];
      [lia|].
    rewrite He. by exists e.
  - rewrite step_replace. exists (Entry n p). split; [|reflexivity].
    cbn. unfold replaced_history, replaced_index. rewrite (stack_ok_nonempty s Hs).
    by apply js_index_assign.
  - rewrite step_reset. by exists (Entry n p).
  - exact Hc.
  - exact Hc.
  - rewrite step_timer. by destruct (pendingTimers s).
Qed.

(** X4. After any sequence of calls on a constructed container, the
    screen shown is the screen of the stack entry at the index: the
    entry [getState()] points at and [currentScreen] never part. *)
Theorem current_screen_is_current_entry (hash : string) (cs : list call) :
  ∃ e, js_index (navigationHistory (run cs (constructor hash)))
                (historyIndex (run cs (constructor hash))) = Some e
       ∧ screen e = currentScreen (run cs (constructor hash)).
Proof.
  assert (H : stack_ok (constructor hash) ∧ shows_current_entry (constructor hash)).
  { split; [apply constructor_stack_ok|].
    rewrite constructor_eq. exists (Entry ROUTES.WELCOME []).
    split; [apply js_index_pushed | reflexivity]. }
  revert H. generalize (constructor hash).
  induction cs as [|c cs IH]; intros s [Hs Hc]; [exact Hc|].
  apply IH. split; [by apply step_stack_ok | by apply step_shows_current_entry].
Qed.

(** ** One step forward, one step back *)

(** X5. A [navigate] that is carried out moves the index up by one,
    keeps the entries up to the old index as they are, drops those above
    it and puts the new entry on top. *)
Theorem navigate_pushes_above_current (n : string) (p : params) (o : option string)
    (s : container) :
  stack_ok s ->
  NavigationHelpers.isValidRoute n = true ->
  animationInProgress s = false ->
  historyIndex (step s (Navigate n p o)) = historyIndex s + 1
  ∧ navigationHistory (step s (Navigate n p o))
    = (take (S (Z.to_nat (historyIndex s))) (navigationHistory s) ++ [Some (Entry n p)])%list
  ∧ Z.of_nat (length (navigationHistory (step s (Navigate n p o)))) = historyIndex s + 2
  ∧ (∀ i, 0 <= i <= historyIndex s ->
          js_index (navigationHistory (step s (Navigate n p o))) i
          = js_index (navigationHistory s) i).
Proof.
  intros [Hi Hh] Hv Ha. rewrite step_navigate, Hv, Ha. cbn [navigated historyIndex navigationHistory].
  assert (Hp : pushed n p s
               = (take (S (Z.to_nat (historyIndex s))) (navigationHistory s)
                  ++ [Some (Entry n p)])%list).
  { unfold pushed. rewrite js_slice0_in_range by lia.
    by replace (Z.to_nat (historyIndex s + 1)) with (S (Z.to_nat (historyIndex s))) by lia. }
  assert (Hl : length (pushed n p s) = S (S (Z.to_nat (historyIndex s)))).
  { rewrite Hp, length_app, length_take. cbn [length]. lia. }
  rewrite Hl. split; [lia|]. split; [exact Hp|]. split; [lia|].
  intros i Hr. rewrite Hp. unfold js_index. destruct (i <? 0); [reflexivity|].
  rewrite lookup_app_l by (rewrite length_take; lia).
  by rewrite lookup_take_lt by lia.
Qed.

Lemma navigate_pushes_above_current_witness :
  let s := run [AnimationTimer] (constructor "#/home") in
  stack_ok s
  ∧ navigationHistory (step s (Navigate "MyFood" [] None))
    = [Some (Entry "Home" []); Some (Entry "Welcome" []); Some (Entry "MyFood" [])].
Proof.
  cbn zeta.
  assert (Hs : stack_ok (run [AnimationTimer] (constructor "#/home"))).
  { apply run_stack_ok, constructor_stack_ok. }
  split; [exact Hs|].
  destruct (navigate_pushes_above_current "MyFood" [] None _ Hs eq_refl eq_refl)
    as (_ & -> & _).
  reflexivity.
Defined.

(** X6. [goBack] right after a [navigate] that was carried out returns
    to the index and the screen from which it started, without waiting
    for the animation; the entry just pushed stays in the stack above
    the index. *)
Theorem goBack_undoes_navigate (n : string) (p : params) (o : option string)
    (s : container) :
  stack_ok s ->
  shows_current_entry s ->
  NavigationHelpers.isValidRoute n = true ->
  animationInProgress s = false ->
  let s1 := step s (Navigate n p o) in
  (goBack s1).1 = Return tt
  ∧ historyIndex (step s1 GoBack) = historyIndex s
  ∧ currentScreen (step s1 GoBack) = currentScreen s
  ∧ navigationHistory (step s1 GoBack) = navigationHistory s1
  ∧ js_index (navigationHistory (step s1 GoBack)) (historyIndex s + 1) = Some (Entry n p).
Proof.
  intros Hs (e & He & Hc) Hv Ha. cbn zeta.
  destruct (navigate_pushes_above_current n p o s Hs Hv Ha) as (Hi1 & Hh1 & Hl1 & Hk).
  pose proof Hs as [Hi _].
  assert (He1 : js_index (navigationHistory (step s (Navigate n p o)))
                  (historyIndex (step s (Navigate n p o)) - 1) = Some e).
  { rewrite Hi1. replace (historyIndex s + 1 - 1) with (historyIndex s) by lia.
    rewrite Hk by lia. exact He. }
  assert (Hpos : 0 < historyIndex (step s (Navigate n p o))) by lia.
  rewrite (goBack_ok e _ Hpos He1), (step_goBack_entry e _ Hpos He1).
  cbn [fst went_back historyIndex currentScreen navigationHistory].
  split; [reflexivity|]. split; [lia|]. split; [exact Hc|]. split; [reflexivity|].
  rewrite <- Hi1. rewrite step_navigate, Hv, Ha. cbn [navigated historyIndex navigationHistory].
  apply js_index_pushed.
Qed.

Lemma goBack_undoes_navigate_witness :
  let s := run [AnimationTimer] (constructor "") in
  stack_ok s ∧ shows_current_entry s
  ∧ currentScreen (step (step s (Navigate "Home" [] None)) GoBack) = "Welcome".
Proof.
  cbn zeta.
  assert (Hs : stack_ok (run [AnimationTimer] (constructor ""))).
  { apply run_stack_ok, constructor_stack_ok. }
  assert (Hc : shows_current_entry (run [AnimationTimer] (constructor ""))).
  { apply current_screen_is_current_entry. }
  split; [exact Hs|]. split; [exact Hc|].
  destruct (goBack_undoes_navigate "Home" [] None _ Hs Hc eq_refl eq_refl)
    as (_ & _ & -> & _).
  reflexivity.
Defined.

(** X7. [goBack] called [k] times moves the index down by [k] but not
    below 0, and never changes the stack. *)
Theorem goBack_repeated (k : nat) (s : container) :
  stack_ok s ->
  historyIndex (run (replicate k GoBack) s) = Z.max 0 (historyIndex s - Z.of_nat k)
  ∧ navigationHistory (run (replicate k GoBack) s) = navigationHistory s.
Proof.
  revert s; induction k as [|k IH]; intros s Hs.
  - cbn. destruct Hs as [Hi _]. split; [lia | reflexivity].
  - change (run (replicate (S k) GoBack) s) with (run (replicate k GoBack) (step s GoBack)).
    destruct (IH (step s GoBack) (step_stack_ok s GoBack Hs)) as [-> ->].
    destruct Hs as [Hi Hh]. rewrite step_goBack. case_bool_decide.
    + destruct (js_index_Some (navigationHistory s) (historyIndex s - 1) Hh) as [e ->];
        [lia|].
      cbn. split; [lia | reflexivity].
    + cbn. split; [lia | reflexivity].
Qed.

Lemma goBack_repeated_witness :
  stack_ok (constructor "#/home")
  ∧ historyIndex (run (replicate 5 GoBack) (constructor "#/home")) = 0.
Proof.
  split; [apply constructor_stack_ok|].
  destruct (goBack_repeated 5 (constructor "#/home") (constructor_stack_ok "#/home"))
    as [-> _].
  reflexivity.
Defined.

(** X8. [replace] overwrites the slot at the index and nothing else: the
    stack keeps its length, the index stays, so [canGoBack()] answers as
    before and [goBack()] leads to the same entry as before. *)
Theorem replace_overwrites_current_slot (n : string) (p : params) (s : container) :
  stack_ok s ->
  navigationHistory (step s (Replace n p))
  = <[Z.to_nat (historyIndex s) := Some (Entry n p)]> (navigationHistory s)
  ∧ length (navigationHistory (step s (Replace n p))) = length (navigationHistory s)
  ∧ historyIndex (step s (Replace n p)) = historyIndex s
  ∧ currentScreen (step s (Replace n p)) = n
  ∧ (canGoBack (step s (Replace n p))).1 = (canGoBack s).1
  ∧ js_index (navigationHistory (step s (Replace n p))) (historyIndex s - 1)
    = js_index (navigationHistory s) (historyIndex s - 1).
Proof.
  intros Hs. pose proof Hs as [Hi _]. rewrite step_replace.
  cbn [replaced navigationHistory historyIndex currentScreen].
  unfold replaced_history, replaced_index, canGoBack, gets.
  rewrite (stack_ok_nonempty s Hs), js_assign_in_range by lia.
  cbn [fst historyIndex replaced]. unfold replaced_index.
  rewrite length_insert, (stack_ok_nonempty s Hs).
  repeat split.
  unfold js_index. destruct (historyIndex s - 1 <? 0) eqn:Hneg; [reflexivity|].
  apply Z.ltb_ge in Hneg. by rewrite list_lookup_insert_ne by lia.
Qed.

Lemma replace_overwrites_current_slot_witness :
  stack_ok (constructor "#/home")
  ∧ navigationHistory (step (constructor "#/home") (Replace "MyFood" []))
    = [Some (Entry "Home" []); Some (Entry "MyFood" [])].
Proof.
  split; [apply constructor_stack_ok|].
  destruct (replace_overwrites_current_slot "MyFood" [] _ (constructor_stack_ok "#/home"))
    as (-> & _).
  reflexivity.
Defined.

(** X9. After [reset(n, p)] the stack is the one entry [{n, p}] at index
    0 and [goBack()] only reports the root; the stored parameters are
    emptied and [p] is not stored, so [getCurrentRoute()] reports [n]
    with no parameters although the stack entry holds [p]. *)
Theorem reset_forgets_params (n : string) (p : params) (s : container) :
  navigationHistory (step s (Reset n p)) = [Some (Entry n p)]
  ∧ historyIndex (step s (Reset n p)) = 0
  ∧ (canGoBack (step s (Reset n p))).1 = Return false
  ∧ (getCurrentRoute (step s (Reset n p))).1 = Return (n, [])
  ∧ (getState (step s (Reset n p))).1 = Return (0, [Some (Entry n p)])
  ∧ step (step s (Reset n p)) GoBack = log [Console LogAtRoot] (step s (Reset n p)).
Proof.
  rewrite step_goBack, step_reset. repeat split.
Qed.

(** ** The navigation state object *)

(** X10. [navigationState] is written by a [navigate] that is carried
    out and by nothing else: after it, the object holds what
    [getState()] returns, its current route is the entry just pushed and
    its history is the whole stack; every other call, [goBack],
    [replace] and [reset] included, leaves the object as it was. *)
Theorem navigationState_follows_navigate_only (c : call) (s : container) :
  (navigates c s = false -> navigationState (step s c) = navigationState s)
  ∧ (navigates c s = true ->
     Return (navigationState (step s c)) = (getState (step s c)).1
     ∧ NavigationState.getHistory (navigationState (step s c))
       = navigationHistory (step s c)
     ∧ ∃ n p o, c = Navigate n p o
                ∧ NavigationState.getCurrentRoute (navigationState (step s c))
                  = Some (Entry n p)).
Proof.
  split.
  - destruct c as [n p o| |n p|n p|ch h|ch h|]; cbn [navigates]; intros Hn.
    + rewrite step_navigate.
      destruct (NavigationHelpers.isValidRoute n); [|reflexivity].
      destruct (animationInProgress s); [reflexivity | discriminate].
    + rewrite step_goBack. case_bool_decide; [|reflexivity].
      by destruct (js_index _ _).
    + by rewrite step_replace.
    + by rewrite step_reset.
    + reflexivity.
    + reflexivity.
    + rewrite step_timer. by destruct (pendingTimers s).
  - destruct c as [n p o| |n p|n p|ch h|ch h|]; cbn [navigates]; try discriminate.
    intros [Hv Ha%negb_true_iff]%andb_prop. rewrite step_navigate, Hv, Ha.
    cbn [navigated navigationState navigationHistory]. split; [reflexivity|]. split.
    + unfold NavigationState.getHistory. cbn [fst snd].
      rewrite js_slice0_in_range by lia.
      replace (Z.to_nat (Z.of_nat (length (pushed n p s)) - 1 + 1))
        with (length (pushed n p s)) by lia.
      apply firstn_all.
    + exists n, p, o. split; [reflexivity|]. apply js_index_pushed.
Qed.

(** ** Subscriptions *)

Lemma trace_step (c : call) (s : container) :
  trace (step s c) = (trace s ++ effects c s)%list.
Proof.
  destruct c as [n p o| |n p|n p|ch h|ch h|]; cbn [effects].
  - rewrite step_navigate.
    destruct (NavigationHelpers.isValidRoute n); [destruct (animationInProgress s)|];
      reflexivity.
  - rewrite step_goBack. case_bool_decide; [|reflexivity].
    destruct (js_index _ _); [reflexivity | cbn; by rewrite app_nil_r].
  - by rewrite step_replace.
  - by rewrite step_reset.
  - cbn. by rewrite app_nil_r.
  - cbn. by rewrite app_nil_r.
  - rewrite step_timer. destruct (pendingTimers s); cbn; by rewrite app_nil_r.
Qed.

Lemma emitted_not_subscribed ch id ch' data seen hs :
  (ch' = ch -> id ∉ map hid hs) ->
  List.filter (is_call_of ch id) (emitted ch' data seen hs) = [].
Proof.
  unfold emitted. induction hs as [|h hs IH]; intros Hn; [reflexivity|].
  cbn [flat_map]. rewrite List.filter_app, IH.
  - assert (Hh : is_call_of ch id (Called ch' (hid h) data seen) = false).
    { cbn. destruct (decide (ch' = ch)) as [Heq|Hne].
      - rewrite (bool_decide_eq_false_2 (hid h = id)); [by rewrite andb_false_r|].
        intros <-. apply (Hn Heq). cbn. by left.
      - by rewrite (bool_decide_eq_false_2 (ch' = ch)). }
    rewrite app_nil_r. cbn [List.filter]. rewrite Hh.
    by destruct (throws h data).
  - intros Heq Hin. apply (Hn Heq). cbn. by right.
Qed.

Lemma render_trace_no_call ch id n p a :
  List.filter (is_call_of ch id) (render_trace n p a) = [].
Proof. unfold render_trace. by destruct (has_config n). Qed.

(** A callback that is not subscribed is not called. *)
Lemma effects_not_subscribed (ch : channel) (id : nat) (c : call) (s : container) :
  ¬ subscribed_to ch id s -> List.filter (is_call_of ch id) (effects c s) = [].
Proof.
  unfold subscribed_to. intros Hn.
  assert (He : ∀ ch' data seen,
             List.filter (is_call_of ch id) (emitted ch' data seen (listeners s ch')) = []).
  { intros ch' data seen. apply emitted_not_subscribed. by intros ->. }
  destruct c as [n p o| |n p|n p|ch0 h|ch0 h|]; cbn [effects]; try reflexivity.
  - destruct (NavigationHelpers.isValidRoute n); [destruct (animationInProgress s)|];
      try reflexivity.
    unfold navigate_trace. rewrite !List.filter_app, !He.
    by destruct (JsString.truthy (currentScreen s)); rewrite ?He.
  - case_bool_decide; [|reflexivity]. destruct (js_index _ _); [|reflexivity].
    unfold back_trace. by rewrite !List.filter_app, !He, render_trace_no_call.
  - unfold replace_trace. by rewrite !List.filter_app, !He, render_trace_no_call.
  - unfold reset_trace. by rewrite !List.filter_app, !He, render_trace_no_call.
Qed.

Lemma step_listeners (c : call) (s : container) (ch : channel) :
  listeners (step s c) ch
  = match c with
    | AddListener ch' h =>
        if decide (ch = ch') then (listeners s ch ++ [h])%list else listeners s ch
    | RemoveListener ch' h =>
        if decide (ch = ch') then filter (fun cb => hid cb ≠ hid h) (listeners s ch)
        else listeners s ch
    | _ => listeners s ch
    end.
Proof.
  destruct c as [n p o| |n p|n p|ch' h|ch' h|].
  - rewrite step_navigate.
    by destruct (NavigationHelpers.isValidRoute n); [destruct (animationInProgress s)|].
  - rewrite step_goBack. case_bool_decide; [|reflexivity]. by destruct (js_index _ _).
  - by rewrite step_replace.
  - by rewrite step_reset.
  - reflexivity.
  - reflexivity.
  - rewrite step_timer. by destruct (pendingTimers s).
Qed.

Lemma step_not_subscribed (ch : channel) (id : nat) (c : call) (s : container) :
  subscribes ch id c = false -> ¬ subscribed_to ch id s -> ¬ subscribed_to ch id (step s c).
Proof.
  unfold subscribed_to. intros Hc Hn. rewrite step_listeners.
  destruct c as [n p o| |n p|n p|ch' h|ch' h|]; try exact Hn.
  - cbn in Hc. destruct (decide (ch = ch')) as [<-|Hch]; [|exact Hn].
    rewrite bool_decide_eq_true_2 in Hc by reflexivity. cbn in Hc.
    apply bool_decide_eq_false in Hc.
    rewrite map_app. intros [Hin|Hin]%elem_of_app; [by apply Hn|].
    cbn in Hin. apply list_elem_of_singleton in Hin. congruence.
  - destruct (decide (ch = ch')) as [<-|Hch]; [|exact Hn].
    intros Hin. apply Hn. apply list_elem_of_fmap in Hin as (cb & -> & Hcb).
    apply list_elem_of_filter in Hcb as [_ Hcb]. by apply list_elem_of_fmap_2.
Qed.

Lemma run_not_called (ch : channel) (id : nat) (cs : list call) (s : container) :
  Forall (fun c => subscribes ch id c = false) cs ->
  ¬ subscribed_to ch id s ->
  List.filter (is_call_of ch id) (since s (run cs s)) = [].
Proof.
  intros Hcs Hn.
  assert (H : ∃ es, trace (run cs s) = (trace s ++ es)%list
                    ∧ List.filter (is_call_of ch id) es = []).
  { revert s Hn. induction Hcs as [|c cs Hc _ IH]; intros s Hn.
    - exists []. split; [by rewrite app_nil_r | reflexivity].
    - destruct (IH (step s c) (step_not_subscribed ch id c s Hc Hn)) as (es & Ht & Hf).
      exists (effects c s ++ es)%list. split.
      + cbn [run fold_left]. unfold run in Ht. rewrite Ht, trace_step. by rewrite app_assoc.
      + by rewrite List.filter_app, Hf, effects_not_subscribed. }
  destruct H as (es & Ht & Hf). unfold since. by rewrite Ht, drop_app_length.
Qed.

(** X11. Once [removeListener] (or the function [addListener] returned)
    has run for a callback, no later call on the container calls that
    callback on that channel, whatever the calls are, unless one of them
    subscribes it again. *)
Theorem unsubscribed_callback_is_never_called (ch : channel) (h : handler)
    (cs : list call) (s : container) :
  Forall (fun c => subscribes ch (hid h) c = false) cs ->
  List.filter (is_call_of ch (hid h))
    (since (step s (RemoveListener ch h)) (run cs (step s (RemoveListener ch h))))
  = [].
Proof.
  intros Hcs. apply run_not_called; [exact Hcs|].
  unfold subscribed_to. rewrite step_listeners. rewrite decide_True by reflexivity.
  intros Hin. apply list_elem_of_fmap in Hin as (cb & Heq & Hcb).
  apply list_elem_of_filter in Hcb as [Hne _]. congruence.
Qed.

Lemma unsubscribed_callback_is_never_called_witness :
  List.filter (is_call_of BLUR 2)
    (since (step subscribed (RemoveListener BLUR (Handler 2 (fun _ => true))))
       (run [Navigate "Home" [] None; GoBack]
          (step subscribed (RemoveListener BLUR (Handler 2 (fun _ => true))))))
  = []
  ∧ List.filter (is_call_of BLUR 2)
      (since subscribed (run [Navigate "Home" [] None; GoBack] subscribed))
    ≠ [].
Proof.
  split; [|vm_compute; discriminate].
  apply (unsubscribed_callback_is_never_called BLUR (Handler 2 (fun _ => true))
           [Navigate "Home" [] None; GoBack] subscribed).
  repeat constructor.
Defined.

Lemma filter_keeps_all (id : nat) (hs : list handler) :
  id ∉ map hid hs -> filter (fun cb => hid cb ≠ id) hs = hs.
Proof.
  induction hs as [|h hs IH]; intros Hn; [reflexivity|].
  rewrite filter_cons_True.
  - f_equal. apply IH. intros Hin. apply Hn. cbn. by right.
  - intros Heq. apply Hn. cbn. rewrite Heq. by left.
Qed.

(** X12. Subscribing a callback that is new to the channel and then
    unsubscribing it gives back the listeners of every channel as they
    were. *)
Theorem subscribe_unsubscribe_round_trip (ch : channel) (h : handler) (s : container) :
  ¬ subscribed_to ch (hid h) s ->
  ∀ ch', listeners (run [AddListener ch h; RemoveListener ch h] s) ch' = listeners s ch'.
Proof.
  unfold subscribed_to. intros Hn ch'. cbn [run fold_left].
  rewrite !step_listeners. destruct (decide (ch' = ch)) as [->|Hch]; [|reflexivity].
  rewrite filter_app, filter_cons_False, filter_nil, app_nil_r by (intros Hne; by apply Hne).
  by apply filter_keeps_all.
Qed.

Lemma subscribe_unsubscribe_round_trip_witness :
  ¬ subscribed_to FOCUS 7 subscribed
  ∧ listeners (run [AddListener FOCUS (Handler 7 (fun _ => false));
                    RemoveListener FOCUS (Handler 7 (fun _ => false))] subscribed) FOCUS
    = listeners subscribed FOCUS.
Proof.
  assert (Hn : ¬ subscribed_to FOCUS 7 subscribed).
  { unfold subscribed_to. vm_compute. intros H.
    repeat (apply elem_of_cons in H as [H|H]; [discriminate|]). by apply elem_of_nil in H. }
  split; [exact Hn|].
  apply (subscribe_unsubscribe_round_trip FOCUS (Handler 7 (fun _ => false)) subscribed Hn).
Defined.

(** ** Browser history and rendering *)

(** X13. A [goBack] that is carried out does not pop the browser
    history: it pushes one more entry, the state and URL of the entry
    gone back to, and it renders that entry. *)
Theorem goBack_pushes_browser_entry (s : container) :
  stack_ok s ->
  0 < historyIndex s ->
  ∃ e, js_index (navigationHistory s) (historyIndex s - 1) = Some e
       ∧ List.filter is_browser_event (since s (step s GoBack))
         = [PushState e (NavigationHelpers.getDeepLink (screen e) (eparams e))]
       ∧ currentScreen (step s GoBack) = screen e.
Proof.
  intros [Hi Hh] Hpos.
  destruct (js_index_Some (navigationHistory s) (historyIndex s - 1) Hh) as [e He]; [lia|].
  exists e. split; [exact He|].
  rewrite (step_goBack_entry e s Hpos He), since_went_back. split; [|reflexivity].
  unfold back_trace.
  by rewrite !List.filter_app, !filter_emitted, filter_render_trace.
Qed.

Lemma goBack_pushes_browser_entry_witness :
  stack_ok animating_home
  ∧ 0 < historyIndex animating_home
  ∧ List.filter is_browser_event (since animating_home (step animating_home GoBack))
    = [PushState (Entry "Welcome" []) "/welcome"].
Proof.
  assert (Hs : stack_ok animating_home).
  { unfold animating_home. apply run_stack_ok, constructor_stack_ok. }
  assert (Hp : 0 < historyIndex animating_home) by (vm_compute; reflexivity).
  split; [exact Hs|]. split; [exact Hp|].
  destruct (goBack_pushes_browser_entry animating_home Hs Hp) as (e & He & -> & _).
  vm_compute in He. injection He as <-. reflexivity.
Defined.



(** ** The popstate listener *)

(** X15. A [popstate] event whose state names a screen shows that screen
    and writes nothing to the browser history or the stack.  If some
    stack entry has the screen and the JSON text of the state, the index
    moves to the first such entry; if none has, the index stays where it
    was, whatever screen is then shown. *)
Theorem popstate_moves_index_to_first_match (st : entry) (hash : string) (s : container) :
  stack_ok s ->
  JsString.truthy (screen st) = true ->
  let s' := page_step s (PopState (Some st) hash) in
  currentScreen s' = screen st
  ∧ navigationHistory s' = navigationHistory s
  ∧ List.filter is_browser_event (since s s') = []
  ∧ ((∃ i h, historyIndex s' = Z.of_nat i
             ∧ navigationHistory s !! i = Some (Some h)
             ∧ screen h = screen st
             ∧ json_equal (eparams h) (eparams st) = true
             ∧ (∀ j h', (j < i)%nat -> navigationHistory s !! j = Some (Some h') ->
                        screen h' = screen st ->
                        json_equal (eparams h') (eparams st) = false))
     ∨ (historyIndex s' = historyIndex s
        ∧ ∀ h, Some h ∈ navigationHistory s -> screen h = screen st ->
               json_equal (eparams h) (eparams st) = false)).
Proof.
  intros [Hi Hh] Ht. cbn zeta. unfold page_step, handle.
  rewrite handlePopState_spec by exact Ht.
  destruct (find_entry_total st _ Hh) as [found Hf]. rewrite Hf. cbn [snd].
  split; [reflexivity|]. split; [reflexivity|]. split.
  - unfold since. cbn [popped trace]. rewrite drop_app_length.
    by rewrite List.filter_app, filter_emitted, filter_render_trace.
  - destruct found as [[i h]|].
    + left. exists i, h. split; [reflexivity|]. by apply find_entry_found.
    + right. split; [reflexivity|]. intros h. by apply find_entry_none.
Qed.

Lemma popstate_moves_index_to_first_match_witness :
  let s := run [AnimationTimer; Navigate "Home" [] None; AnimationTimer;
                Navigate "MyFood" [] None] (constructor "") in
  stack_ok s
  ∧ historyIndex s = 2
  ∧ historyIndex (page_step s (PopState (Some (Entry "Home" [])) "")) = 1
  ∧ currentScreen (page_step s (PopState (Some (Entry "Home" [])) "")) = "Home".
Proof.
  cbn zeta. split; [apply run_stack_ok, constructor_stack_ok|].
  split; [reflexivity|]. split; [reflexivity|].
  apply (popstate_moves_index_to_first_match (Entry "Home" []) "" _);
    [apply run_stack_ok, constructor_stack_ok | reflexivity].
Defined.

(** ** Links and routes *)

(** X16. [parseDeepLink] answers every path with a registered route: an
    unknown or empty path falls back to [Home], never to an error; and
    the only parameter it ever reports is the [id] of [RecipeDetail]. *)
Theorem parseDeepLink_route_is_registered (path : string) :
  NavigationHelpers.isValidRoute (NavigationHelpers.parseDeepLink path).1 = true
  ∧ ((NavigationHelpers.parseDeepLink path).2 = []
     ∨ (NavigationHelpers.parseDeepLink path).1 = ROUTES.RECIPE_DETAIL
       ∧ ∃ v, (NavigationHelpers.parseDeepLink path).2 = [("id", v)]).
Proof.
  unfold NavigationHelpers.parseDeepLink.
  destruct (NavigationHelpers.segments path !! 0%nat) as [seg0|];
    [|split; [reflexivity | by left]].
  repeat case_decide; (split; [reflexivity|]); try (by left).
  right. split; [reflexivity | by eexists].
Qed.










(** ** Favourites *)

Lemma findIndex_None {A : Type} (f : A -> bool) (l : list A) :
  findIndex f l = None <-> List.filter f l = [].
Proof.
  induction l as [|x l IH]; cbn; [done|].
  destruct (f x); [split; discriminate|].
  destruct (findIndex f l); cbn; [|tauto].
  split; [discriminate|]. intros H. apply IH in H. discriminate.
Qed.

Lemma findIndex_Some {A : Type} (f : A -> bool) (l : list A) (i : nat) :
  findIndex f l = Some i ->
  ∃ x, l !! i = Some x ∧ f x = true ∧ List.filter f (take i l) = [].
Proof.
  revert i; induction l as [|x l IH]; intros i; cbn; [discriminate|].
  destruct (f x) eqn:Hx.
  - intros [= <-]. by exists x.
  - destruct (findIndex f l) as [j|]; cbn; [|discriminate].
    intros [= <-]. destruct (IH j eq_refl) as (y & Hl & Hy & Hb).
    exists y. cbn. by rewrite Hx.
Qed.

Lemma findIndex_app_last {A : Type} (f : A -> bool) (l : list A) (x : A) :
  List.filter f l = [] -> f x = true -> findIndex f (l ++ [x]) = Some (length l).
Proof.
  intros Hl Hx. induction l as [|y l IH]; cbn in Hl |- *; [by rewrite Hx|].
  destruct (f y); [discriminate|]. by rewrite IH.
Qed.

Lemma filter_delete {A : Type} (g : A -> bool) (l : list A) (i : nat) :
  List.filter g (delete i l)
  = (List.filter g (take i l) ++ List.filter g (drop (S i) l))%list.
Proof. by rewrite delete_take_drop, List.filter_app. Qed.

Lemma filter_middle {A : Type} (g : A -> bool) (l : list A) (i : nat) (x : A) :
  l !! i = Some x ->
  List.filter g l
  = (List.filter g (take i l) ++ (if g x then [x] else [])
     ++ List.filter g (drop (S i) l))%list.
Proof.
  intros Hl. rewrite <- (take_drop_middle l i x Hl) at 1.
  rewrite List.filter_app. cbn [List.filter]. by destruct (g x).
Qed.


(** X21. When no stored favourite has the id and the recipe passed has
    it as its key, [toggleFavorite] adds the recipe at the end and a
    second [toggleFavorite] takes it out again: the stored list is the
    one before the two calls. *)
Theorem toggleFavorite_twice_restores (recipeId : string) (r : recipe)
    (item : option (list recipe)) :
  List.filter (is_favorite recipeId) (stored_favorites item) = [] ->
  favorite_key r = Some recipeId ->
  toggleFavorite recipeId r item
  = (Some (stored_favorites item ++ [r])%list,
     Notification "Added to favorites!" "success", true)
  ∧ toggleFavorite recipeId r (toggleFavorite recipeId r item).1.1
    = (Some (stored_favorites item), Notification "Removed from favorites" "info", false).
Proof.
  intros Habs Hr.
  assert (H1 : toggleFavorite recipeId r item
               = (Some (stored_favorites item ++ [r])%list,
                  Notification "Added to favorites!" "success", true)).
  { unfold toggleFavorite. by rewrite (proj2 (findIndex_None _ _) Habs). }
  split; [exact H1|]. rewrite H1. cbn [fst].
  unfold toggleFavorite.
  change (stored_favorites (Some (stored_favorites item ++ [r])%list))
    with (stored_favorites item ++ [r])%list.
  assert (Hi : findIndex (is_favorite recipeId) (stored_favorites item ++ [r])
               = Some (length (stored_favorites item))).
  { apply findIndex_app_last; [exact Habs|].
    unfold is_favorite. by rewrite bool_decide_eq_true_2. }
  rewrite Hi. repeat f_equal.
  rewrite delete_take_drop, take_app_length, drop_ge, app_nil_r; [reflexivity|].
  rewrite length_app. cbn. lia.
Qed.

Lemma toggleFavorite_twice_restores_witness :
  List.filter (is_favorite "52772")
    (stored_favorites (Some [[("idMeal", "1"); ("recipeName", "Soup")]])) = []
  ∧ (toggleFavorite "52772" [("idMeal", "52772")]
       (toggleFavorite "52772" [("idMeal", "52772")]
          (Some [[("idMeal", "1"); ("recipeName", "Soup")]])).1.1).1.1
    = Some [[("idMeal", "1"); ("recipeName", "Soup")]].
Proof.
  split; [reflexivity|].
  destruct (toggleFavorite_twice_restores "52772" [("idMeal", "52772")]
              (Some [[("idMeal", "1"); ("recipeName", "Soup")]]) eq_refl eq_refl)
    as [_ ->].
  reflexivity.
Defined.

(** X22. When the recipe passed does not have the id as its key (and no
    stored favourite has), [toggleFavorite] never finds what it added:
    [k] calls store [k] copies of the recipe. *)
Theorem toggleFavorite_key_mismatch_accumulates (k : nat) (recipeId : string) (r : recipe)
    (item : option (list recipe)) :
  List.filter (is_favorite recipeId) (stored_favorites item) = [] ->
  favorite_key r ≠ Some recipeId ->
  stored_favorites (toggle_times k recipeId r item)
  = (stored_favorites item ++ replicate k r)%list.
Proof.
  intros Habs Hr. revert item Habs. induction k as [|k IH]; intros item Habs.
  - cbn. by rewrite app_nil_r.
  - cbn [toggle_times]. unfold toggleFavorite at 1.
    rewrite (proj2 (findIndex_None _ _) Habs). cbn [fst].
    rewrite IH.
    + change (stored_favorites (Some (stored_favorites item ++ [r])%list))
        with (stored_favorites item ++ [r])%list.
      cbn [replicate]. by rewrite <- app_assoc.
    + change (stored_favorites (Some (stored_favorites item ++ [r])%list))
        with (stored_favorites item ++ [r])%list.
      rewrite List.filter_app, Habs. cbn.
      unfold is_favorite. by rewrite bool_decide_eq_false_2.
Qed.

Lemma toggleFavorite_key_mismatch_accumulates_witness :
  favorite_key [("id", "7")] ≠ Some "52772"
  ∧ stored_favorites (toggle_times 3 "52772" [("id", "7")] None)
    = [[("id", "7")]; [("id", "7")]; [("id", "7")]].
Proof.
  assert (H : favorite_key [("id", "7")] ≠ Some "52772") by discriminate.
  split; [exact H|].
  apply (toggleFavorite_key_mismatch_accumulates 3 "52772" [("id", "7")] None eq_refl H).
Defined.

(** X23. When some stored favourite has the id, [toggleFavorite] takes
    out the first one only: one favourite fewer has the id, those before
    it and all favourites with other keys stay as they are, and the
    recipe passed is not stored. *)
Theorem toggleFavorite_removes_first_match (recipeId : string) (r : recipe)
    (item : option (list recipe)) :
  List.filter (is_favorite recipeId) (stored_favorites item) ≠ [] ->
  ∃ i fav,
    stored_favorites item !! i = Some fav
    ∧ favorite_key fav = Some recipeId
    ∧ List.filter (is_favorite recipeId) (take i (stored_favorites item)) = []
    ∧ toggleFavorite recipeId r item
      = (Some (delete i (stored_favorites item)),
         Notification "Removed from favorites" "info", false)
    ∧ S (length (List.filter (is_favorite recipeId) (delete i (stored_favorites item))))
      = length (List.filter (is_favorite recipeId) (stored_favorites item))
    ∧ List.filter (fun f => negb (is_favorite recipeId f)) (delete i (stored_favorites item))
      = List.filter (fun f => negb (is_favorite recipeId f)) (stored_favorites item).
Proof.
  intros Hpres.
  destruct (findIndex (is_favorite recipeId) (stored_favorites item)) as [i|] eqn:Hi;
    [|by apply findIndex_None in Hi].
  destruct (findIndex_Some _ _ _ Hi) as (fav & Hl & Hf & Hb).
  exists i, fav. split; [exact Hl|].
  split; [by apply bool_decide_eq_true in Hf|]. split; [exact Hb|].
  split; [unfold toggleFavorite; by rewrite Hi|]. split.
  - rewrite filter_delete, (filter_middle (is_favorite recipeId) _ i fav Hl), Hf.
    rewrite !length_app. cbn. lia.
  - rewrite filter_delete, (filter_middle (fun f => negb (is_favorite recipeId f)) _ i fav Hl).
    by rewrite Hf.
Qed.

Lemma toggleFavorite_removes_first_match_witness :
  List.filter (is_favorite "1")
    (stored_favorites (Some [[("idMeal", "1")]; [("idMeal", ""); ("id", "1")]])) ≠ []
  ∧ (toggleFavorite "1" [] (Some [[("idMeal", "1")]; [("idMeal", ""); ("id", "1")]])).1.1
    = Some [[("idMeal", ""); ("id", "1")]].
Proof.
  assert (H : List.filter (is_favorite "1")
                (stored_favorites (Some [[("idMeal", "1")]; [("idMeal", ""); ("id", "1")]]))
              ≠ []) by discriminate.
  split; [exact H|].
  destruct (toggleFavorite_removes_first_match "1" []
              (Some [[("idMeal", "1")]; [("idMeal", ""); ("id", "1")]]) H)
    as (i & fav & Hl & _ & Hb & -> & _).
  destruct i as [|[|i]]; [reflexivity | discriminate Hb | discriminate Hl].
Defined.

(** ** Recipe cards *)

(** X24. A press on a recipe card while no animation is in progress
    opens [RecipeDetail] for the first food with that [idMeal]: its
    entry is put on the stack and [getCurrentRoute()] reports the food
    under [recipe].  When no food has the id, or the component has no
    navigation object, no call is made at all. *)
Theorem press_opens_recipe_detail (foods : list recipe) (recipeId : string) (s : container) :
  animationInProgress s = false ->
  handleRecipePress foods false recipeId = None
  ∧ match find_food foods recipeId with
    | Some food =>
        food ∈ foods
        ∧ table_get food "idMeal" = Some recipeId
        ∧ currentScreen (press foods recipeId s) = ROUTES.RECIPE_DETAIL
        ∧ js_index (navigationHistory (press foods recipeId s))
                   (historyIndex (press foods recipeId s))
          = Some (Entry ROUTES.RECIPE_DETAIL [("recipe", VObject food)])
        ∧ ∃ stored, (getCurrentRoute (press foods recipeId s)).1
                    = Return (ROUTES.RECIPE_DETAIL, stored)
                    ∧ obj_get stored "recipe" = Some (VObject food)
    | None =>
        press foods recipeId s = s
        ∧ ∀ food, food ∈ foods -> table_get food "idMeal" ≠ Some recipeId
    end.
Proof.
  intros Ha. split.
  { unfold handleRecipePress. by destruct (find_food foods recipeId). }
  unfold press, handleRecipePress, find_food.
  destruct (List.find _ foods) as [food|] eqn:Hf.
  - apply List.find_some in Hf as [Hin Hid]. apply bool_decide_eq_true in Hid.
    split; [by apply list_elem_of_In|]. split; [exact Hid|].
    rewrite step_navigate, Ha.
    change (NavigationHelpers.isValidRoute ROUTES.RECIPE_DETAIL) with true.
    cbn iota. split; [reflexivity|]. split; [apply js_index_pushed|].
    eexists. split.
    + unfold getCurrentRoute, gets. cbn [fst navigated currentScreen screenParams].
      unfold merged. by rewrite lookup_insert_eq.
    + apply obj_get_spread_Some; [|reflexivity].
      apply NoDup_singleton.
  - split; [reflexivity|]. intros food Hin%list_elem_of_In Hid.
    apply (List.find_none _ _ Hf) in Hin. by apply bool_decide_eq_false in Hin.
Qed.

Lemma press_opens_recipe_detail_witness :
  let s := run [AnimationTimer] (constructor "") in
  let foods := [[("idMeal", "1"); ("recipeName", "Soup")];
                [("idMeal", "2"); ("recipeName", "Stew")]] in
  animationInProgress s = false
  ∧ currentScreen (press foods "2" s) = "RecipeDetail"
  ∧ press foods "3" s = s.
Proof.
  cbn zeta. split; [reflexivity|].
  pose proof (press_opens_recipe_detail
                [[("idMeal", "1"); ("recipeName", "Soup")];
                 [("idMeal", "2"); ("recipeName", "Stew")]]
                "2" (run [AnimationTimer] (constructor "")) eq_refl) as [_ H2].
  pose proof (press_opens_recipe_detail
                [[("idMeal", "1"); ("recipeName", "Soup")];
                 [("idMeal", "2"); ("recipeName", "Stew")]]
                "3" (run [AnimationTimer] (constructor "")) eq_refl) as [_ H3].
  split; [exact (proj1 (proj2 (proj2 H2))) | exact (proj1 H3)].
Defined.

(** ** Card texts *)

Section TextFacts.

Context {code_unit : Type} (of_ascii : ascii -> code_unit).

Lemma length_literal (s : string) : length (literal of_ascii s) = String.length s.
Proof.
  unfold literal. rewrite length_map.
  induction s as [|c s IH]; [reflexivity|]. cbn. by rewrite IH.
Qed.

Lemma take_truncated (k : nat) (t dots : list code_unit) :
  (k < length t)%nat -> take k (take k t ++ dots) = take k t.
Proof. intros H. apply take_app_length'. rewrite length_take. lia. Qed.

(** X25. [formatInstructions] gives back a text of at most 100 code
    units as it is, and cuts a longer one to its first 100 code units
    followed by three dots; the result never has more than 103 code
    units, begins as the text does, and formatting it again changes
    nothing. *)
Theorem formatInstructions_bounded_idempotent (t : list code_unit) :
  (length (formatInstructions of_ascii t) <= 103)%nat
  ∧ ((length t <= 100)%nat -> formatInstructions of_ascii t = t)
  ∧ ((100 < length t)%nat ->
     formatInstructions of_ascii t = (take 100 t ++ literal of_ascii "...")%list)
  ∧ take 100 (formatInstructions of_ascii t) = take 100 t
  ∧ formatInstructions of_ascii (formatInstructions of_ascii t)
    = formatInstructions of_ascii t.
Proof.
  unfold formatInstructions.
  destruct (100 <? length t)%nat eqn:Hl.
  - apply Nat.ltb_lt in Hl.
    assert (Hlen : length (take 100 t ++ literal of_ascii "...") = 103%nat).
    { rewrite length_app, length_take, length_literal. cbn [String.length]. lia. }
    rewrite Hlen. split; [lia|]. split; [lia|]. split; [done|].
    rewrite take_truncated by exact Hl. split; [reflexivity|].
    reflexivity.
  - apply Nat.ltb_ge in Hl. split; [lia|]. split; [done|]. split; [lia|].
    split; [reflexivity|]. by rewrite (proj2 (Nat.ltb_ge _ _) Hl).
Qed.

(** X26. [formatDescription] never gives an empty text: a missing or
    empty text becomes the stock sentence, a text of at most 80 code
    units stays, a longer one is cut to 80 code units and three dots;
    the result has at most 83 code units and formatting it again changes
    nothing. *)
Theorem formatDescription_never_empty (instructions : option (list code_unit)) :
  formatDescription of_ascii instructions ≠ []
  ∧ (length (formatDescription of_ascii instructions) <= 83)%nat
  ∧ formatDescription of_ascii (Some (formatDescription of_ascii instructions))
    = formatDescription of_ascii instructions
  ∧ formatDescription of_ascii (Some []) = formatDescription of_ascii None.
Proof.
  assert (Hstock : ∀ t, t = literal of_ascii "Delicious recipe with amazing flavors" ->
            t ≠ [] ∧ (length t <= 83)%nat ∧ formatDescription of_ascii (Some t) = t).
  { intros t ->. split; [discriminate|].
    split; [rewrite length_literal; cbn [String.length]; lia | reflexivity]. }
  split; [|split; [|split; [|reflexivity]]];
    (destruct instructions as [[|c t]|]; [by apply Hstock| |by apply Hstock]);
    cbn [formatDescription];
    (destruct (80 <? length (c :: t))%nat eqn:Hl;
     [apply Nat.ltb_lt in Hl | apply Nat.ltb_ge in Hl]).
  - discriminate.
  - discriminate.
  - rewrite length_app, length_take, length_literal. cbn [String.length]. lia.
  - lia.
  - destruct (take 80 (c :: t) ++ literal of_ascii "...")%list as [|c' t'] eqn:Ht;
      [discriminate|].
    rewrite <- Ht.
    assert (Hlen : length (take 80 (c :: t) ++ literal of_ascii "...") = 83%nat).
    { rewrite length_app, length_take, length_literal. cbn [String.length]. lia. }
    rewrite Hlen. cbn [Nat.ltb Nat.leb]. by rewrite take_truncated.
  - by rewrite (proj2 (Nat.ltb_ge _ _) Hl).
Qed.

End TextFacts.

(** ** Paths and stored parameters, once more *)

(** X27. Slashes at the start of a path do not matter to
    [parseDeepLink]: empty segments are dropped before the first segment
    is looked at. *)
Theorem parseDeepLink_ignores_leading_slash (path : string) :
  NavigationHelpers.parseDeepLink ("/" ++ path) = NavigationHelpers.parseDeepLink path
  ∧ NavigationHelpers.parseDeepLink ("//" ++ path) = NavigationHelpers.parseDeepLink path
  ∧ Forall (fun seg => seg ≠ "") (NavigationHelpers.segments path).
Proof.
  assert (Hs : ∀ p, NavigationHelpers.segments ("/" ++ p) = NavigationHelpers.segments p).
  { intros p. unfold NavigationHelpers.segments. rewrite append_cons.
    change ("" ++ p)%string with p. cbn [JsString.split].
    rewrite decide_True by reflexivity. reflexivity. }
  split; [|split].
  - unfold NavigationHelpers.parseDeepLink. by rewrite Hs.
  - unfold NavigationHelpers.parseDeepLink.
    change ("//" ++ path)%string with ("/" ++ ("/" ++ path))%string. by rewrite !Hs.
  - unfold NavigationHelpers.segments. apply Forall_forall. intros seg Hin.
    apply list_elem_of_In, List.filter_In in Hin as [_ Ht]. by destruct seg.
Qed.





